(** * MwalimuAi: quiz sessions, answer parsing and grading

    A shallow embedding of the quiz code of the MwalimuAi backend:

    - [AiHandler]       ai/aiHandler.js ([generateQuiz], the bare-letter
                        test of [detectIntent])
    - [Server]          server.js (the session store keyed by phone number,
                        [parseQuizAnswers], [gradeQuizAnswers],
                        [extractCorrectAnswers])
    - [SessionObject]   the same store with the properties it inherits
                        from its prototype
    - [WhatsappHandler] whatsapp/whatsappHandler.js ([startQuiz],
                        [answerQuiz])
    - [GradingSpec], [ParserSpec]: what grading and parsing are to
                        compute, stated without loops over mutable
                        variables and without regular expressions

    JavaScript strings are modelled as [string] (bytes); the character
    classes, [trim] and the case conversions are those of JavaScript on
    ASCII text, bytes above 127 are left alone and are never white space.
    JavaScript numbers are IEEE 754 binary64 values, taken from the
    Standard Library's [SpecFloat]. *)

From Stdlib Require Import ZArith List Ascii String Bool Lia.
From Stdlib Require Import Floats.SpecFloat DecimalString.
From stdpp Require Import base option list gmap strings.

Import ListNotations.
Local Open Scope string_scope.

(** ** Completions

    A synchronous JavaScript call either returns or throws; the only
    exception the modelled functions can raise themselves is the
    [TypeError] of reading a property of [undefined]. *)

Inductive completion (A : Type) : Type :=
| Normal (a : A)
| TypeError.

Arguments Normal {A} a.
Arguments TypeError {A}.

(** ** String primitives *)

Module JsString.

Definition code (c : ascii) : N := N_of_ascii c.

Definition isDigit (c : ascii) : bool :=
  (48 <=? code c)%N && (code c <=? 57)%N.

(** [\s] and the white space of [trim], on ASCII: TAB, LF, VT, FF, CR
    and space. *)
Definition isSpace (c : ascii) : bool :=
  ((9 <=? code c)%N && (code c <=? 13)%N) || (code c =? 32)%N.

Definition isLower (c : ascii) : bool :=
  (97 <=? code c)%N && (code c <=? 122)%N.

Definition isUpper (c : ascii) : bool :=
  (65 <=? code c)%N && (code c <=? 90)%N.

Definition upperChar (c : ascii) : ascii :=
  if isLower c then ascii_of_N (code c - 32) else c.

Definition lowerChar (c : ascii) : ascii :=
  if isUpper c then ascii_of_N (code c + 32) else c.

Fixpoint mapChars (f : ascii -> ascii) (s : string) : string :=
  match s with
  | EmptyString => EmptyString
  | String c s' => String (f c) (mapChars f s')
  end.

Definition toUpperCase : string -> string := mapChars upperChar.
Definition toLowerCase : string -> string := mapChars lowerChar.

Fixpoint trimStart (s : string) : string :=
  match s with
  | String c s' => if isSpace c then trimStart s' else s
  | EmptyString => EmptyString
  end.

(** [trimEnd] keeps a character when it is not white space or when
    something is kept after it. *)
Fixpoint trimEnd (s : string) : string :=
  match s with
  | EmptyString => EmptyString
  | String c s' =>
      match trimEnd s' with
      | EmptyString => if isSpace c then EmptyString else String c EmptyString
      | t => String c t
      end
  end.

Definition trim (s : string) : string := trimEnd (trimStart s).

Definition isEmpty (s : string) : bool :=
  match s with EmptyString => true | _ => false end.

Fixpoint startsWith (p s : string) : bool :=
  match p, s with
  | EmptyString, _ => true
  | String a p', String b s' => Ascii.eqb a b && startsWith p' s'
  | String _ _, EmptyString => false
  end.

(** [s.split(c)] for a one-character separator: the pieces between the
    occurrences of [c]; never the empty list. *)
Fixpoint splitChar (sep : ascii) (s : string) : list string :=
  match s with
  | EmptyString => [EmptyString]
  | String c s' =>
      if Ascii.eqb c sep then EmptyString :: splitChar sep s'
      else match splitChar sep s' with
           | piece :: pieces => String c piece :: pieces
           | [] => [String c EmptyString]
           end
  end.

Definition firstChars (n : nat) (s : string) : string := substring 0 n s.

(** The decimal rendering of a length inside a template literal. *)
Definition ofNat (n : nat) : string :=
  NilEmpty.string_of_uint (Nat.to_uint n).

Definition LF : string := String (ascii_of_nat 10) EmptyString.

End JsString.

(** ** Regular expressions

    The regular expressions of the source are built from these
    constructors and run by a backtracking matcher with the priorities
    of JavaScript: the left alternative first, as many iterations as
    possible first. *)

Module Regex.

Import JsString.

Inductive regex : Type :=
| Class (p : ascii -> bool)
| Eps
| Cat (r1 r2 : regex)
| Alt (r1 r2 : regex)
| Star (r : regex)
| Group (i : nat) (r : regex).

Definition Plus (r : regex) : regex := Cat r (Star r).
Definition Opt (r : regex) : regex := Alt r Eps.

Definition Chr (c : ascii) : regex := Class (Ascii.eqb c).
(** A character under the [i] flag. *)
Definition ChrI (c : ascii) : regex :=
  Class (fun x => Ascii.eqb (upperChar x) (upperChar c)).

Fixpoint Lit (s : string) : regex :=
  match s with
  | EmptyString => Eps
  | String c EmptyString => Chr c
  | String c s' => Cat (Chr c) (Lit s')
  end.

Fixpoint LitI (s : string) : regex :=
  match s with
  | EmptyString => Eps
  | String c EmptyString => ChrI c
  | String c s' => Cat (ChrI c) (LitI s')
  end.

Definition digit : regex := Class isDigit.
Definition space : regex := Class isSpace.

(** [[A-D]], and [[A-D]] under the [i] flag. *)
Definition isAD (c : ascii) : bool := (65 <=? code c)%N && (code c <=? 68)%N.
Definition isADi (c : ascii) : bool := isAD (upperChar c).

Definition captures : Type := list (nat * string).

Fixpoint getGroup (i : nat) (caps : captures) : option string :=
  match caps with
  | [] => None
  | (j, s) :: caps' => if Nat.eqb i j then Some s else getGroup i caps'
  end.

Definition consumed (s s' : string) : string :=
  firstChars (String.length s - String.length s') s.

(** The iterations of a star whose body is matched by [body]: at most
    [n] more of them, as many as possible first, then the continuation
    [k].  An iteration that consumes nothing is rejected, so the length
    of the text bounds their number. *)
Fixpoint iterate {R : Type}
         (body : string -> captures -> (string -> captures -> option R) -> option R)
         (k : string -> captures -> option R)
         (n : nat) (s : string) (caps : captures) : option R :=
  match n with
  | O => k s caps
  | S n' =>
      match body s caps
              (fun s1 caps1 =>
                 if (String.length s1 <? String.length s)%nat
                 then iterate body k n' s1 caps1 else None) with
      | Some x => Some x
      | None => k s caps
      end
  end.

(** [run r s caps k]: match [r] at the start of [s], then hand the rest
    of the text and the captures to the continuation [k]; [None] makes
    the matcher backtrack. *)
Fixpoint run {R : Type} (r : regex) (s : string) (caps : captures)
         (k : string -> captures -> option R) {struct r} : option R :=
  match r with
  | Class p =>
      match s with
      | String c s' => if p c then k s' caps else None
      | EmptyString => None
      end
  | Eps => k s caps
  | Cat r1 r2 => run r1 s caps (fun s1 caps1 => run r2 s1 caps1 k)
  | Alt r1 r2 =>
      match run r1 s caps k with
      | Some x => Some x
      | None => run r2 s caps k
      end
  | Star r1 =>
      iterate (fun s1 caps1 k1 => run r1 s1 caps1 k1) k (String.length s) s caps
  | Group i r1 =>
      run r1 s caps (fun s1 caps1 => k s1 ((i, consumed s s1) :: caps1))
  end.

Record result : Type := MkResult {
  whole : string;      (* m[0] *)
  groups : captures;
  after : string       (* the text after the match *)
}.

Definition group (i : nat) (m : result) : option string :=
  getGroup i (groups m).

(** One attempt at the current position. *)
Definition matchHere (r : regex) (s : string) : option result :=
  run r s [] (fun s' caps => Some (MkResult (consumed s s') caps s')).

(** [s.match(r)] without the [g] flag: the leftmost match. *)
Fixpoint exec (r : regex) (s : string) : option result :=
  match matchHere r s with
  | Some m => Some m
  | None =>
      match s with
      | EmptyString => None
      | String _ s' => exec r s'
      end
  end.

(** All matches of a [g] regular expression, left to right
    ([matchAll], [match] and the [exec] loop): after a match the search
    resumes behind it, one character further when it was empty.
    [skip] counts the characters of the last match still to pass. *)
Fixpoint matchAllFrom (skip : nat) (r : regex) (s : string) : list result :=
  match skip with
  | S skip' =>
      match s with
      | EmptyString => []
      | String _ s' => matchAllFrom skip' r s'
      end
  | O =>
      match matchHere r s with
      | Some m =>
          m :: match s with
               | EmptyString => []
               | String _ s' =>
                   matchAllFrom (Nat.pred (String.length (whole m))) r s'
               end
      | None =>
          match s with
          | EmptyString => []
          | String _ s' => matchAllFrom 0 r s'
          end
      end
  end.

Definition matchAll (r : regex) (s : string) : list result :=
  matchAllFrom 0 r s.

(** [r.test(s)] for a regular expression written between [^] and [$]. *)
Definition testWhole (r : regex) (s : string) : bool :=
  match run r s [] (fun s' _ => if isEmpty s' then Some tt else None) with
  | Some _ => true
  | None => false
  end.

(** [s.split(r)] for a regular expression without groups.  [piece]
    holds the characters since the last separator, latest first. *)
Fixpoint revString (acc s : string) : string :=
  match s with
  | EmptyString => acc
  | String c s' => revString (String c acc) s'
  end.

Fixpoint splitFrom (skip : nat) (r : regex) (piece : string) (s : string)
  : list string :=
  match skip with
  | S skip' =>
      match s with
      | EmptyString => [revString EmptyString piece]
      | String _ s' => splitFrom skip' r piece s'
      end
  | O =>
      match s with
      | EmptyString => [revString EmptyString piece]
      | String c s' =>
          match matchHere r s with
          | Some m =>
              match String.length (whole m) with
              | O =>
                  if isEmpty piece then splitFrom 0 r (String c piece) s'
                  else revString EmptyString piece
                         :: splitFrom 0 r (String c EmptyString) s'
              | S n =>
                  revString EmptyString piece :: splitFrom n r EmptyString s'
              end
          | None => splitFrom 0 r (String c piece) s'
          end
      end
  end.

Definition split (r : regex) (s : string) : list string :=
  match s with
  | EmptyString =>
      match matchHere r s with Some _ => [] | None => [EmptyString] end
  | _ => splitFrom 0 r EmptyString s
  end.

End Regex.

(** ** Numbers

    JavaScript numbers are binary64 floating-point values; lengths and
    counters are integers far below 2^53 and convert exactly. *)

Module Number.

Definition number : Type := spec_float.

Definition prec : Z := 53.
Definition emax : Z := 1024.

Definition ofZ (z : Z) : number := binary_normalize prec emax z 0 false.
Definition ofNat (n : nat) : number := ofZ (Z.of_nat n).

Definition div : number -> number -> number := SFdiv prec emax.
Definition mul : number -> number -> number := SFmul prec emax.

Definition NaN : number := S754_nan.

#[export] Instance number_eq_dec : EqDecision number.
Proof. solve_decision. Defined.

(** [Math.round]: the integer nearest to [x], the larger one of two
    equally near; infinities, NaN and zeros are returned as they are,
    and a value in [-0.5, -0) gives the negative zero. *)
Definition Math_round (x : number) : number :=
  match x with
  | S754_finite s m e =>
      if (0 <=? e)%Z then x
      else
        let q := ((2 * cond_Zopp s (Zpos m) + 2 ^ (- e)) / 2 ^ (- e + 1))%Z in
        if (q =? 0)%Z && s then S754_zero true else ofZ q
  | _ => x
  end.

End Number.

(** ** ai/aiHandler.js *)

Module AiHandler.

(** The text of the quiz the [catch] branch of [generateQuiz] returns. *)
Definition fallbackQuiz : string :=
  "Question 1: What is 15 × 4? A) 45 B) 60 C) 50 D) 55" ++ JsString.LF ++
  "Question 2: Solve 2x + 5 = 15 A) x=10 B) x=5 C) x=7.5 D) x=8" ++ JsString.LF ++
  "Question 3: Area of rectangle? A) 13 B) 40 C) 26 D) 45".

Definition quizPrompt (subject : string) : string :=
  "Create 3 multiple choice questions about " ++ subject ++
  " for Kenyan high school students. Format: Question 1: [question] A) B) C) D)".

(** [generateContent] stands for the call of the generative model and
    the reading of its response text: [None] when any step of it
    throws.  A second argument of the callers (the count 3) is ignored
    by the function, which has one parameter. *)
Definition generateQuiz (generateContent : string -> option string)
           (subject : string) : string :=
  match generateContent (quizPrompt subject) with
  | Some text => text
  | None => fallbackQuiz
  end.

(** The second test of the fallback of [detectIntent], on the lowercased
    and trimmed message with every run of white space made one space:
    [/^[a-d](\s+[a-d]){1,4}$/i], two to five letters on their own,
    separated by white space. *)
Fixpoint collapseSpaces (inRun : bool) (s : string) : string :=
  match s with
  | EmptyString => EmptyString
  | String c s' =>
      if JsString.isSpace c
      then if inRun then collapseSpaces true s'
           else String " " (collapseSpaces true s')
      else String c (collapseSpaces false s')
  end.

Definition spacedLetter : Regex.regex :=
  Regex.Cat (Regex.Plus Regex.space) (Regex.Class Regex.isADi).

Definition shortAnswerPattern : Regex.regex :=
  Regex.Cat (Regex.Class Regex.isADi)
    (Regex.Cat spacedLetter
       (Regex.Opt (Regex.Cat spacedLetter
          (Regex.Opt (Regex.Cat spacedLetter (Regex.Opt spacedLetter)))))).

Definition looksLikeShortAnswer (message : string) : bool :=
  let msg := JsString.trim (JsString.toLowerCase message) in
  Regex.testWhole shortAnswerPattern (collapseSpaces false msg).

End AiHandler.

(** ** server.js: sessions graded in one pass *)

Module Server.

Import JsString Regex Number.

Record QuizSession : Type := MkSession {
  subject : string;
  quizText : string;
  correctAnswers : list string;
  createdAt : Z;
  expiresAt : Z
}.

(** The properties [quizSessions] holds itself, a map from phone
    numbers to sessions.  The functions of this module read and write
    these only; what the object inherits from its prototype is added in
    [SessionObject] below, and the two agree for every name under which
    nothing is inherited. *)
Abbreviation Store := (gmap string QuizSession).

Definition TTL : Z := 30 * 60 * 1000.

(** [Date.now()] is read twice, for [createdAt] and for [expiresAt]. *)
Definition createQuizSession (now1 now2 : Z) (phone subject quizText : string)
           (correctAnswers : list string) (quizSessions : Store) : Store :=
  <[phone := {| subject := subject;
                quizText := quizText;
                correctAnswers := correctAnswers;
                createdAt := now1;
                expiresAt := now2 + TTL |}]> quizSessions.

Definition getActiveQuizSession (now : Z) (phone : string) (quizSessions : Store)
  : option QuizSession * Store :=
  match quizSessions !! phone with
  | None => (None, quizSessions)
  | Some session =>
      if (now >? expiresAt session)%Z
      then (None, delete phone quizSessions)
      else (Some session, quizSessions)
  end.

(** [/\d+([A-D])/g] *)
Definition pattern1 : regex := Cat (Plus digit) (Group 1 (Class isAD)).
(** [/[A-D]/g] *)
Definition pattern2 : regex := Class isAD.

Definition parseQuizAnswers (message : string) : list string :=
  let msg := trim (toUpperCase message) in
  let matches := matchAll pattern1 msg in
  if (0 <? length matches)%nat
  then omap (group 1) matches
  else
    let matches := whole <$> matchAll pattern2 msg in
    if (2 <=? length matches)%nat then matches else [].

Record QuestionResult : Type := MkQuestionResult {
  questionNumber : nat;
  userAnswer : string;
  correctAnswer : string;
  isCorrect : bool
}.

Record Grading : Type := MkGrading {
  score : number;
  correctCount : nat;
  totalQuestions : nat;
  results : list QuestionResult;
  gradedSubject : string
}.

(** The two shapes of the object [gradeQuizAnswers] returns:
    [{success: false, message}] and [{success: true, score, ...}]. *)
Inductive Outcome : Type :=
| Failure (message : string)
| Success (g : Grading).

Definition noActiveQuiz : string :=
  "❌ No active quiz found. Please request a new quiz first.".

Definition pleaseProvide (n : nat) : string :=
  "❌ Please provide " ++ JsString.ofNat n ++ " answers." ++ LF ++ LF ++
  "*Format:* 1A 2C 3B" ++ LF ++ "*Or:* A C B".

(** The expression of [score]:
    [Math.round((correctCount / session.correctAnswers.length) * 100)]. *)
Definition percentScore (correctCount total : nat) : number :=
  Math_round (mul (div (Number.ofNat correctCount) (Number.ofNat total)) (ofZ 100)).

(** The [forEach] over [userAnswers]: [index] is the position of the
    next answer, [correctCount] and [results] are the two variables the
    callback updates.  Reading past the end of [correctAnswers] gives
    [undefined], whose [toUpperCase] throws. *)
Fixpoint gradeEach (correctAnswers : list string) (userAnswers : list string)
         (index correctCount : nat) (results : list QuestionResult)
  : completion (nat * list QuestionResult) :=
  match userAnswers with
  | [] => Normal (correctCount, results)
  | answer :: rest =>
      match correctAnswers !! index with
      | None => TypeError
      | Some key =>
          let isCorrect := String.eqb (toUpperCase answer) (toUpperCase key) in
          gradeEach correctAnswers rest (S index)
            (if isCorrect then S correctCount else correctCount)
            (results ++ [ {| questionNumber := index + 1;
                             userAnswer := toUpperCase answer;
                             correctAnswer := toUpperCase key;
                             isCorrect := isCorrect |} ])
      end
  end.

Definition gradeQuizAnswers (now : Z) (phone : string) (userAnswers : list string)
           (quizSessions : Store) : completion (Outcome * Store) :=
  match getActiveQuizSession now phone quizSessions with
  | (None, quizSessions) => Normal (Failure noActiveQuiz, quizSessions)
  | (Some session, quizSessions) =>
      if negb (length userAnswers =? length (correctAnswers session))%nat
      then Normal (Failure (pleaseProvide (length (correctAnswers session))),
                   quizSessions)
      else
        match gradeEach (correctAnswers session) userAnswers 0 0 [] with
        | TypeError => TypeError
        | Normal (correctCount, results) =>
            let score :=
              percentScore correctCount (length (correctAnswers session)) in
            Normal (Success {| score := score;
                               correctCount := correctCount;
                               totalQuestions := length (correctAnswers session);
                               results := results;
                               gradedSubject := subject session |},
                    delete phone quizSessions)
        end
  end.

(** [/\d+[-:]?\s*[A-D]/] under the [i] flag, with or without a group
    around the letter. *)
Definition dashOrColon (c : ascii) : bool :=
  Ascii.eqb c "-" || Ascii.eqb c ":".

Definition numberedAnswer (letter : regex) : regex :=
  Cat (Plus digit) (Cat (Opt (Class dashOrColon)) (Cat (Star space) letter)).

(** Group 1 of both patterns: one numbered answer, then any number of
    further ones, each behind a comma with optional white space on
    both sides. *)
Definition answerList : regex :=
  Group 1
    (Cat (numberedAnswer (Class isADi))
         (Star (Cat (Star space)
               (Cat (Chr ",")
               (Cat (Star space) (numberedAnswer (Class isADi))))))).

(** [ANSWERS?:?\s*] followed by the list. *)
Definition answersHeading : regex :=
  Cat (LitI "ANSWER") (Cat (Opt (ChrI "S")) (Cat (Opt (Chr ":")) (Star space))).

Definition patterns : list regex :=
  [ Cat (LitI "CORRECT") (Cat (Plus space) (Cat answersHeading answerList));
    Cat answersHeading answerList ].

(** [/\d+[-:]?\s*([A-D])/gi] *)
Definition answerPattern : regex := numberedAnswer (Group 1 (Class isADi)).

Fixpoint extractFrom (patterns : list regex) (quizText : string) : list string :=
  match patterns with
  | [] => []
  | pattern :: patterns' =>
      match exec pattern quizText with
      | Some m =>
          let answers :=
            toUpperCase <$> omap (group 1) (matchAll answerPattern (whole m)) in
          if (0 <? length answers)%nat then answers
          else extractFrom patterns' quizText
      | None => extractFrom patterns' quizText
      end
  end.

Definition extractCorrectAnswers (quizText : string) : list string :=
  extractFrom patterns quizText.

End Server.

(** ** server.js: the session store with what it inherits

    [quizSessions] is made by an object literal, so a name it does not
    hold itself is looked up in its prototype, [Object.prototype] when
    the process starts; an assignment under the name [__proto__] stores
    nothing and makes the assigned session the prototype.  The three
    functions are those of [Server], on the whole object. *)

Module SessionObject.

Import JsString Number Server.

(** What reading a property of [quizSessions] can give. *)
Inductive value : Type :=
| VSession (session : QuizSession)
| VString (s : string)
| VNumber (z : Z)
| VArray (items : list string)
| VFunction (name : string)       (* a method of [Object.prototype] *)
| VObjectPrototype.

(** [proto] is [None] while the prototype is [Object.prototype]. *)
Record object : Type := MkObject {
  own : Store;
  proto : option QuizSession
}.

(** [{}] *)
Definition empty : object := {| own := ∅; proto := None |}.

(** The methods of [Object.prototype]; its one other property,
    [__proto__], is an accessor. *)
Definition objectPrototypeMethods : list string :=
  [ "constructor"; "hasOwnProperty"; "isPrototypeOf"; "propertyIsEnumerable";
    "toLocaleString"; "toString"; "valueOf";
    "__defineGetter__"; "__defineSetter__"; "__lookupGetter__"; "__lookupSetter__" ].

(** The properties of a session object. *)
Definition field (session : QuizSession) (name : string) : option value :=
  if String.eqb name "subject" then Some (VString (subject session))
  else if String.eqb name "quizText" then Some (VString (quizText session))
  else if String.eqb name "correctAnswers" then Some (VArray (correctAnswers session))
  else if String.eqb name "createdAt" then Some (VNumber (createdAt session))
  else if String.eqb name "expiresAt" then Some (VNumber (expiresAt session))
  else None.

(** A property of [Object.prototype], read through [quizSessions]: the
    getter of [__proto__] returns the prototype of [quizSessions]. *)
Definition fromObjectPrototype (o : object) (name : string) : option value :=
  if String.eqb name "__proto__"
  then Some (match proto o with
             | Some session => VSession session
             | None => VObjectPrototype
             end)
  else if existsb (String.eqb name) objectPrototypeMethods then Some (VFunction name)
  else None.

(** What [quizSessions] inherits under [name]: a session that was made
    the prototype comes first, [Object.prototype] behind it. *)
Definition inherited (o : object) (name : string) : option value :=
  match proto o with
  | Some session =>
      match field session name with
      | Some v => Some v
      | None => fromObjectPrototype o name
      end
  | None => fromObjectPrototype o name
  end.

(** [quizSessions[name]], [None] for [undefined]. *)
Definition get (name : string) (o : object) : option value :=
  match own o !! name with
  | Some session => Some (VSession session)
  | None => inherited o name
  end.

(** [quizSessions[name] = session]: the setter of [__proto__] replaces
    the prototype; under every other name the object gets or changes a
    property of its own (the inherited ones are writable). *)
Definition set (name : string) (session : QuizSession) (o : object) : object :=
  if String.eqb name "__proto__"
  then match own o !! name with
       | Some _ => {| own := <[name := session]> (own o); proto := proto o |}
       | None => {| own := own o; proto := Some session |}
       end
  else {| own := <[name := session]> (own o); proto := proto o |}.

(** [delete quizSessions[name]] removes a property of the object
    itself and no inherited one. *)
Definition remove (name : string) (o : object) : object :=
  {| own := delete name (own o); proto := proto o |}.

(** [!v] is false. *)
Definition truthy (v : value) : bool :=
  match v with
  | VString s => negb (isEmpty s)
  | VNumber z => negb (z =? 0)%Z
  | _ => true
  end.

Definition createQuizSession (now1 now2 : Z) (phone subject quizText : string)
           (correctAnswers : list string) (quizSessions : object) : object :=
  set phone {| subject := subject;
               quizText := quizText;
               correctAnswers := correctAnswers;
               createdAt := now1;
               expiresAt := now2 + TTL |} quizSessions.

(** Only a session has an [expiresAt]; for the other values
    [session.expiresAt] is [undefined] and the comparison is false. *)
Definition getActiveQuizSession (now : Z) (phone : string) (quizSessions : object)
  : option value * object :=
  match get phone quizSessions with
  | None => (None, quizSessions)
  | Some v =>
      if negb (truthy v) then (None, quizSessions)
      else
        match v with
        | VSession session =>
            if (now >? expiresAt session)%Z
            then (None, remove phone quizSessions)
            else (Some v, quizSessions)
        | _ => (Some v, quizSessions)
        end
  end.

(** Only a session has [correctAnswers]; for the other values
    [session.correctAnswers] is [undefined] and reading its [length]
    throws. *)
Definition gradeQuizAnswers (now : Z) (phone : string) (userAnswers : list string)
           (quizSessions : object) : completion (Outcome * object) :=
  match getActiveQuizSession now phone quizSessions with
  | (None, quizSessions) => Normal (Failure noActiveQuiz, quizSessions)
  | (Some (VSession session), quizSessions) =>
      if negb (length userAnswers =? length (correctAnswers session))%nat
      then Normal (Failure (pleaseProvide (length (correctAnswers session))),
                   quizSessions)
      else
        match gradeEach (correctAnswers session) userAnswers 0 0 [] with
        | TypeError => TypeError
        | Normal (correctCount, results) =>
            let score :=
              percentScore correctCount (length (correctAnswers session)) in
            Normal (Success {| score := score;
                               correctCount := correctCount;
                               totalQuestions := length (correctAnswers session);
                               results := results;
                               gradedSubject := subject session |},
                    remove phone quizSessions)
        end
  | (Some _, _) => TypeError
  end.

End SessionObject.

(** ** whatsapp/whatsappHandler.js: sessions answered one question at a time *)

Module WhatsappHandler.

Import JsString Regex.

Record Question : Type := MkQuestion {
  q : option string;          (* [lines[0]], [undefined] without lines *)
  options : list string;
  answer : string
}.

Record Given : Type := MkGiven {
  given : string;
  correct : string
}.

Record QuizSession : Type := MkSession {
  subject : string;
  questions : list Question;
  answersGiven : list Given
}.

(** The [quizSessions] object of this file; the one of server.js is
    another object.  The handler keys it by the sender, a text that
    starts with [whatsapp:], and no such name is inherited. *)
Abbreviation Store := (gmap string QuizSession).

(** [/Question \d+: /] *)
Definition questionHeading : regex :=
  Cat (Lit "Question ") (Cat (Plus digit) (Lit ": ")).

(** [/(\d)-([A-D])/gi] *)
Definition answerPair : regex :=
  Cat (Group 1 digit) (Cat (Chr "-") (Group 2 (Class isADi))).

(** The callback of [map] in [startQuiz], for one block of the text. *)
Definition parseQuestion (block : string) : completion Question :=
  let lines := filter (fun l => isEmpty (trim l) = false) (splitChar (ascii_of_nat 10) block) in
  let qText := lines !! 0%nat in
  let options := take 4 (drop 1 lines) in
  let answerLine :=
    default EmptyString (find (fun l => startsWith "correct answers" (toLowerCase l)) lines) in
  let answerMatch := whole <$> matchAll answerPair answerLine in
  match answerMatch with
  | first :: _ =>
      match splitChar "-" first !! 1%nat with
      | Some letter =>
          Normal {| q := qText; options := options; answer := toUpperCase letter |}
      | None => TypeError
      end
  | [] => Normal {| q := qText; options := options; answer := "A" |}
  end.

Fixpoint parseQuestions (blocks : list string) : completion (list Question) :=
  match blocks with
  | [] => Normal []
  | block :: blocks' =>
      match parseQuestion block with
      | TypeError => TypeError
      | Normal question =>
          match parseQuestions blocks' with
          | TypeError => TypeError
          | Normal questions => Normal (question :: questions)
          end
      end
  end.

(** [startQuiz] after its [await]: [quizText] is what [generateQuiz]
    resolved to. *)
Definition startQuizWith (quizText : string) (phoneNumber subject : string)
           (quizSessions : Store) : completion (list Question * Store) :=
  match parseQuestions (drop 1 (split questionHeading quizText)) with
  | TypeError => TypeError
  | Normal questions =>
      Normal (questions,
              <[phoneNumber := {| subject := subject;
                                  questions := questions;
                                  answersGiven := [] |}]> quizSessions)
  end.

Definition startQuiz (generateContent : string -> option string)
           (phoneNumber subject : string) (quizSessions : Store)
  : completion (list Question * Store) :=
  startQuizWith (AiHandler.generateQuiz generateContent subject)
                phoneNumber subject quizSessions.

Record Reply : Type := MkReply {
  finished : bool;
  message : string
}.

Definition noActiveQuiz : string := "❌ No active quiz found.".

Definition totalCorrect (answersGiven : list Given) : nat :=
  length (filter (fun a => toUpperCase (given a) = toUpperCase (correct a))
                 answersGiven).

Definition quizFinished (totalCorrect total : nat) : string :=
  LF ++ "🎉 Quiz finished! Score: " ++ JsString.ofNat totalCorrect ++ "/" ++
  JsString.ofNat total.

(** [answerQuiz].  The push on [session.answersGiven] changes the
    stored session, so the store is updated in place; the guarded call
    of [recordQuizScore] is skipped, utils/database exporting no such
    function. *)
Definition answerQuiz (phoneNumber answer : string) (quizSessions : Store)
  : completion (Reply * Store) :=
  match quizSessions !! phoneNumber with
  | None => Normal ({| finished := true; message := noActiveQuiz |}, quizSessions)
  | Some session =>
      let currentIndex := length (answersGiven session) in
      match questions session !! currentIndex with
      | None => TypeError
      | Some currentQuestion =>
          let isCorrect :=
            String.eqb (toUpperCase (trim answer))
                       (toUpperCase (WhatsappHandler.answer currentQuestion)) in
          let answersGiven' :=
            (answersGiven session ++
               [ {| given := answer;
                    correct := WhatsappHandler.answer currentQuestion |} ])%list in
          let session' := {| subject := subject session;
                             questions := questions session;
                             answersGiven := answersGiven' |} in
          let feedback :=
            if isCorrect then "✅ Correct!"
            else "❌ Wrong! Correct answer: " ++ WhatsappHandler.answer currentQuestion in
          let finished := (length answersGiven' =? length (questions session))%nat in
          if finished
          then Normal ({| finished := true;
                          message := feedback ++
                            quizFinished (totalCorrect answersGiven')
                                         (length (questions session)) |},
                       delete phoneNumber (<[phoneNumber := session']> quizSessions))
          else Normal ({| finished := false; message := feedback |},
                       <[phoneNumber := session']> quizSessions)
      end
  end.

(** The stores the handler can be in: empty when the process starts,
    then changed by [startQuiz] and by [answerQuiz] calls that return. *)
Inductive reachable : Store -> Prop :=
| reachable_empty : reachable ∅
| reachable_start quizText phoneNumber subject st questions st' :
    reachable st ->
    startQuizWith quizText phoneNumber subject st = Normal (questions, st') ->
    reachable st'
| reachable_answer phoneNumber answer st reply st' :
    reachable st ->
    answerQuiz phoneNumber answer st = Normal (reply, st') ->
    reachable st'.

End WhatsappHandler.

(** ** More string primitives *)

Module JsStringMore.

Import JsString.

(** [hay.includes(needle)] *)
Fixpoint includes (needle hay : string) : bool :=
  startsWith needle hay
  || match hay with
     | EmptyString => false
     | String _ hay' => includes needle hay'
     end.

(** [s.charAt(0).toUpperCase() + s.slice(1)] *)
Definition capitalize (s : string) : string :=
  match s with
  | EmptyString => EmptyString
  | String c s' => String (upperChar c) s'
  end.

(** [s.replace(r, '')] for a [g] pattern [r] that matches the single
    characters of a class. *)
Fixpoint removeChars (p : ascii -> bool) (s : string) : string :=
  match s with
  | EmptyString => EmptyString
  | String c s' => if p c then removeChars p s' else String c (removeChars p s')
  end.

Fixpoint allChars (p : ascii -> bool) (s : string) : bool :=
  match s with
  | EmptyString => true
  | String c s' => p c && allChars p s'
  end.

(** A text of ASCII characters only: on these the case conversions and
    [trim] above are those of JavaScript without exception. *)
Definition isAscii (s : string) : bool := allChars (fun c => (code c <? 128)%N) s.

End JsStringMore.

(** ** ai/aiHandler.js: the subject of a quiz request *)

Module Subject.

Import JsString JsStringMore.

Definition subjects : list string :=
  ["math"; "mathematics"; "english"; "science"; "kiswahili"].

Definition extractSubject (message : string) : string :=
  let msg := toLowerCase message in
  match find (fun s => includes s msg) subjects with
  | Some found => capitalize found
  | None => "Mathematics"
  end.

End Subject.

(** ** ai/aiHandler.js: the intent of a message without the model *)

Module Intent.

Import JsString JsStringMore Regex AiHandler.

(** The group of the first pattern under the [i] flag: digits, one of
    the letters a to d, and white space if any. *)
Definition numberedGroup : regex :=
  Group 1 (Cat (Plus digit) (Cat (Class isADi) (Star space))).

(** The first pattern: that group two to five times, between [^] and
    [$]. *)
Definition quizAnswerPattern : regex :=
  Cat numberedGroup
    (Cat numberedGroup
       (Opt (Cat numberedGroup
          (Opt (Cat numberedGroup (Opt numberedGroup)))))).

(** The [catch] branch of [detectIntent]: the intent read off the
    message when the call of the generative model fails. *)
Definition detectIntentFallback (message : string) : string :=
  let msg := trim (toLowerCase message) in
  if testWhole quizAnswerPattern (collapseSpaces false msg)
     || testWhole shortAnswerPattern (collapseSpaces false msg)
  then "QUIZ_ANSWER"
  else if includes "register student" msg then "REGISTER_STUDENT"
  else if includes "register teacher" msg then "REGISTER_TEACHER"
  else if includes "register parent" msg then "REGISTER_PARENT"
  else if includes "check" msg || includes "performance" msg then "CHECK_PERFORMANCE"
  else if includes "quiz" msg then "QUIZ_REQUEST"
  else if includes "record grade" msg then "RECORD_GRADES"
  else if includes "class stat" msg then "CLASS_STATS"
  else "HELP".

(** The characters of a text of the second pattern. *)
Definition letterOrSpace (c : ascii) : bool := isADi c || isSpace c.

End Intent.

(** ** whatsapp/whatsappHandler.js: addresses and delivery

    The retry loop is given what the successive calls of
    [sendWhatsAppMessage] come to and returns, with its outcome, what
    it did in order; [retries] is a count, 2 where the caller names
    none. *)

Module Delivery.

Import JsString JsStringMore Regex.

(** [/\s|-/] *)
Definition spaceOrDash (c : ascii) : bool := isSpace c || Ascii.eqb c "-".

(** [raw] is [None] for [undefined] and [null]. *)
Definition normalizeWhatsAppNumber (raw : option string) : option string :=
  match raw with
  | None => None
  | Some raw =>
      if isEmpty raw then None
      else if startsWith "whatsapp:" raw then Some raw
      else if startsWith "+" raw then Some ("whatsapp:" ++ raw)
      else
        let digitsOnly := removeChars spaceOrDash raw in
        if testWhole (Plus digit) digitsOnly
        then Some ("whatsapp:+" ++ digitsOnly)
        else None
  end.

Definition DEFAULT_TWILIO_WHATSAPP_NUMBER : string := "whatsapp:+14155238886".

(** [configured] is the value of the environment variable, [None] when
    it is not set. *)
Definition getConfiguredFromNumber (configured : option string) : string :=
  match configured with
  | Some configured =>
      if negb (isEmpty configured) && startsWith "whatsapp:" configured
      then configured
      else if negb (isEmpty configured) && startsWith "+" configured
           then "whatsapp:" ++ configured
           else DEFAULT_TWILIO_WHATSAPP_NUMBER
  | None => DEFAULT_TWILIO_WHATSAPP_NUMBER
  end.

(** What one call of [sendWhatsAppMessage] comes to. *)
Inductive settled (T E : Type) : Type :=
| Resolved (response : T)
| Rejected (err : E).

Arguments Resolved {T E} response.
Arguments Rejected {T E} err.

(** What the retry loop does, in order: calls of [sendWhatsAppMessage]
    and timers, each with the delay handed to [setTimeout]. *)
Inductive step : Type :=
| Send (attempt : nat)
| Wait (delay : Number.number).

(** [500 * Math.pow(2, attempt)] in binary64: the power of two is exact
    up to 2^1023 and infinite above. *)
Definition backoff (attempt : nat) : Number.number :=
  Number.mul (Number.ofZ 500) (Number.ofZ (2 ^ Z.of_nat attempt)).

(** The loop of [sendWhatsAppMessageWithRetry] from [attempt] on, with
    [remaining = retries - attempt]; [send n] is what the call of
    attempt [n] comes to. *)
Fixpoint retryFrom {T E : Type} (send : nat -> settled T E)
         (attempt remaining : nat) : settled T E * list step :=
  match send attempt with
  | Resolved response => (Resolved response, [Send attempt])
  | Rejected err =>
      match remaining with
      | O => (Rejected err, [Send attempt])
      | S remaining' =>
          let '(outcome, steps) := retryFrom send (S attempt) remaining' in
          (outcome, Send attempt :: Wait (backoff attempt) :: steps)
      end
  end.

(** [retries] is a whole number, as in every call of this repository
    (which passes none and so gets 2). *)
Definition sendWhatsAppMessageWithRetry {T E : Type} (send : nat -> settled T E)
           (retries : nat) : settled T E * list step :=
  retryFrom send 0 retries.

Definition sends (steps : list step) : list nat :=
  omap (fun s => match s with Send n => Some n | Wait _ => None end) steps.

Definition delays (steps : list step) : list Number.number :=
  omap (fun s => match s with Send _ => None | Wait delay => Some delay end) steps.

End Delivery.

(** ** Reference definitions for the retry loop

    The delays in whole milliseconds, to be compared with the binary64
    values the loop hands to its timers. *)

Module DeliverySpec.

(** The delay behind the failed attempt [attempt]. *)
Definition backoffMs (attempt : nat) : Z := 500 * 2 ^ Z.of_nat attempt.

(** The longest delay a timer of Node.js waits for; it replaces a longer
    one by one millisecond. *)
Definition TIMEOUT_MAX : Z := 2 ^ 31 - 1.

(** The delays behind the first [attempts] attempts, added up. *)
Definition totalMs (attempts : nat) : Z :=
  foldr Z.add 0%Z (backoffMs <$> seq 0 attempts).

End DeliverySpec.

(** ** whatsapp/whatsappHandler.js: a sender answering a quiz *)

Module Conversation.

Import WhatsappHandler.

(** The replies to the successive messages of one sender while a quiz is
    stored for them: the handler hands every such message to
    [answerQuiz]. *)
Fixpoint answerEach (phoneNumber : string) (answers : list string)
         (quizSessions : Store) : completion (list Reply * Store) :=
  match answers with
  | [] => Normal ([], quizSessions)
  | answer :: answers' =>
      match answerQuiz phoneNumber answer quizSessions with
      | TypeError => TypeError
      | Normal (reply, quizSessions') =>
          match answerEach phoneNumber answers' quizSessions' with
          | TypeError => TypeError
          | Normal (replies, quizSessions'') =>
              Normal (reply :: replies, quizSessions'')
          end
      end
  end.

End Conversation.

(** ** Reference definitions for the grading pass

    The grading result as the specification words it, index by index,
    to be compared with what the loop of [gradeQuizAnswers] computes. *)

Module GradingSpec.

Import JsString Server.

(** The submitted answer at [i], uppercased, equals the key letter at
    [i], uppercased. *)
Definition agreeAt (answers key : list string) (i : nat) : bool :=
  match answers !! i, key !! i with
  | Some a, Some k => String.eqb (toUpperCase a) (toUpperCase k)
  | _, _ => false
  end.

(** The number of indices at which answer and key agree. *)
Definition agreeingIndices (answers key : list string) : nat :=
  length (filter (fun i => agreeAt answers key i = true) (seq 0 (length answers))).

(** [agreeAt] from position [index] of the key on, for the answers
    still to grade. *)
Definition agreeFrom (index : nat) (answers key : list string) (j : nat) : bool :=
  match answers !! j, key !! (index + j)%nat with
  | Some a, Some k => String.eqb (toUpperCase a) (toUpperCase k)
  | _, _ => false
  end.

Definition resultAt (i : nat) (a k : string) : QuestionResult :=
  {| questionNumber := i + 1;
     userAnswer := toUpperCase a;
     correctAnswer := toUpperCase k;
     isCorrect := String.eqb (toUpperCase a) (toUpperCase k) |}.

(** [round(100 * correct / total)], halves away from zero, in exact
    integer arithmetic (for a non-negative quotient). *)
Definition roundedPercentage (correct total : nat) : Z :=
  (200 * Z.of_nat correct + Z.of_nat total) / (2 * Z.of_nat total).

(** The same in binary64 and in the order of the specification's
    formula, [Math.round(100 * correct / total)]: the product first,
    then the quotient. *)
Definition percentageProductFirst (correct total : nat) : Number.number :=
  Number.Math_round
    (Number.div (Number.mul (Number.ofZ 100) (Number.ofNat correct))
                (Number.ofNat total)).

End GradingSpec.

(** ** Reference definitions for the answer parser

    The two accepted forms without regular expressions, to be compared
    with what the patterns of [parseQuizAnswers] match. *)

Module ParserSpec.

Import JsString Regex.

(** The numbered form in the words of the specification: the letters A
    to D that stand directly behind a run of digits, in the order of the
    text, without the digits.  [afterDigit] tells whether the character
    before the current one was a digit. *)
Fixpoint numberedLetters (afterDigit : bool) (s : string) : list string :=
  match s with
  | EmptyString => []
  | String c s' =>
      if isDigit c then numberedLetters true s'
      else if afterDigit && isAD c
           then String c EmptyString :: numberedLetters false s'
           else numberedLetters false s'
  end.

(** Every letter A to D of the text, in the order of the text. *)
Fixpoint lettersAtoD (s : string) : list string :=
  match s with
  | EmptyString => []
  | String c s' =>
      if isAD c then String c EmptyString :: lettersAtoD s' else lettersAtoD s'
  end.

(** The text behind its leading digits, and behind its first [n]
    characters. *)
Fixpoint dropDigits (s : string) : string :=
  match s with
  | String c s' => if isDigit c then dropDigits s' else s
  | EmptyString => EmptyString
  end.

Fixpoint dropChars (n : nat) (s : string) : string :=
  match n, s with
  | S n', String _ s' => dropChars n' s'
  | _, _ => s
  end.

End ParserSpec.

(** ** Reference definitions for the matcher

    Characters a pattern cannot do without, and the language of a
    pattern, to reason about every text at once. *)

Module RegexFacts.

Import JsString Regex.

(** Some character of the text satisfies [P]. *)
Fixpoint hasChar (P : ascii -> bool) (s : string) : bool :=
  match s with
  | EmptyString => false
  | String c s' => P c || hasChar P s'
  end.

Definition everyChar : list ascii := ascii_of_nat <$> seq 0 256.

(** [requires P r]: a sufficient test that every text matched by [r]
    holds a character satisfying [P]. *)
Fixpoint requires (P : ascii -> bool) (r : regex) : bool :=
  match r with
  | Class p => forallb (fun c => implb (p c) (P c)) everyChar
  | Eps => false
  | Cat r1 r2 => requires P r1 || requires P r2
  | Alt r1 r2 => requires P r1 && requires P r2
  | Star _ => false
  | Group _ r1 => requires P r1
  end.

(** [s'] is what is left of [s] behind some of its characters. *)
Definition endsWith (s' s : string) : Prop := exists pre, s = pre ++ s'.

End RegexFacts.

Module RegexLang.

Import JsString Regex.

Definition concatAll (ws : list string) : string := foldr String.append EmptyString ws.

(** The texts a pattern can match, whatever the priorities. *)
Fixpoint lang (r : regex) (w : string) : Prop :=
  match r with
  | Class p => exists c, w = String c EmptyString /\ p c = true
  | Eps => w = EmptyString
  | Cat r1 r2 => exists w1 w2, w = w1 ++ w2 /\ lang r1 w1 /\ lang r2 w2
  | Alt r1 r2 => lang r1 w \/ lang r2 w
  | Star r1 => exists ws, w = concatAll ws /\ Forall (lang r1) ws
  | Group _ r1 => lang r1 w
  end.

End RegexLang.

(** ** Sample sessions *)

Module Sample.

Import Server.

Definition phone : string := "+254712345678".

(** A session over three questions, created at time 0. *)
Definition store3 : Store :=
  createQuizSession 0 0 phone "Mathematics" AiHandler.fallbackQuiz ["B"; "b"; "C"] ∅.

Definition session3 : QuizSession :=
  {| subject := "Mathematics";
     quizText := AiHandler.fallbackQuiz;
     correctAnswers := ["B"; "b"; "C"];
     createdAt := 0;
     expiresAt := TTL |}.

(** A session over forty questions and forty answers, the first
    twenty-three of them right. *)
Definition store40 : Store :=
  createQuizSession 0 0 phone "Mathematics" "40 questions" (replicate 40 "A") ∅.

Definition answers40 : list string :=
  (replicate 23 "a" ++ replicate 17 "B")%list.

(** What grading the answers b, B, a against [store3] returns. *)
Definition grading3 : Grading :=
  {| score := percentScore 2 3;
     correctCount := 2;
     totalQuestions := 3;
     results := [GradingSpec.resultAt 0 "b" "B";
                        GradingSpec.resultAt 1 "B" "b";
                        GradingSpec.resultAt 2 "a" "C"];
     gradedSubject := "Mathematics" |}.

(** The store of the one-question-at-a-time handler after a quiz was
    started from the fallback text. *)
Definition questions3 : list WhatsappHandler.Question :=
  [ {| WhatsappHandler.q := Some "What is 15 × 4? A) 45 B) 60 C) 50 D) 55";
       WhatsappHandler.options := [];
       WhatsappHandler.answer := "A" |};
    {| WhatsappHandler.q := Some "Solve 2x + 5 = 15 A) x=10 B) x=5 C) x=7.5 D) x=8";
       WhatsappHandler.options := [];
       WhatsappHandler.answer := "A" |};
    {| WhatsappHandler.q := Some "Area of rectangle? A) 13 B) 40 C) 26 D) 45";
       WhatsappHandler.options := [];
       WhatsappHandler.answer := "A" |} ].

Definition started3 : WhatsappHandler.QuizSession :=
  {| WhatsappHandler.subject := "Mathematics";
     WhatsappHandler.questions := questions3;
     WhatsappHandler.answersGiven := [] |}.

Definition startedStore : WhatsappHandler.Store := <[phone := started3]> ∅.

(** The store of server.js that holds [store3], its prototype as the
    object literal made it. *)
Definition object3 : SessionObject.object :=
  {| SessionObject.own := store3; SessionObject.proto := None |}.

(** A sender as the handler names it, and its store with one question
    asked and not yet answered. *)
Definition sender : string := "whatsapp:+254712345678".

Definition lastQuestion : WhatsappHandler.QuizSession :=
  {| WhatsappHandler.subject := "Mathematics";
     WhatsappHandler.questions := take 1 questions3;
     WhatsappHandler.answersGiven := [] |}.

Definition lastQuestionStore : WhatsappHandler.Store := <[sender := lastQuestion]> ∅.

End Sample.

(** * Properties *)

Section Grading.

Import JsString Server GradingSpec Number.

Lemma agreeFrom_0 answers key j : agreeFrom 0 answers key j = agreeAt answers key j.
Proof. reflexivity. Qed.

Lemma agreeFrom_cons index a answers key j :
  agreeFrom index (a :: answers) key (S j) = agreeFrom (S index) answers key j.
Proof. unfold agreeFrom. simpl. by rewrite Nat.add_succ_r. Qed.

Lemma length_filter_fmap {A B : Type} (f : A -> B) (P : B -> Prop)
      `{forall x, Decision (P x)} (l : list A) :
  length (filter P (f <$> l)) = length (filter (fun x => P (f x)) l).
Proof.
  induction l as [|x l IH]; [done|].
  rewrite fmap_cons, !filter_cons.
  case_decide; simpl; by rewrite IH.
Qed.

Lemma count_cons index a answers key :
  length (filter (fun j => agreeFrom index (a :: answers) key j = true)
                 (seq 0 (length (a :: answers))))
  = ((if agreeFrom index (a :: answers) key 0 then 1 else 0)
     + length (filter (fun j => agreeFrom (S index) answers key j = true)
                      (seq 0 (length answers))))%nat.
Proof.
  cbn [length seq]. rewrite filter_cons, <- fmap_S_seq.
  assert (Htail :
    length (filter (fun j => agreeFrom index (a :: answers) key j = true)
                   (S <$> seq 0 (length answers)))
    = length (filter (fun j => agreeFrom (S index) answers key j = true)
                     (seq 0 (length answers)))).
  { rewrite length_filter_fmap. f_equal. apply list_filter_iff.
    intros j. by rewrite agreeFrom_cons. }
  case_decide as H0; cbn [length]; rewrite Htail.
  - by rewrite H0.
  - by destruct (agreeFrom index (a :: answers) key 0).
Qed.

(** The loop of the grading pass, from any position and any state of
    its two variables. *)
Lemma gradeEach_spec key answers :
  forall index count results,
    (index + length answers <= length key)%nat ->
    exists results',
      gradeEach key answers index count results
      = Normal ((count + length (filter (fun j => agreeFrom index answers key j = true)
                                        (seq 0 (length answers))))%nat,
                (results ++ results')%list)
      /\ length results' = length answers
      /\ forall j a k, answers !! j = Some a -> key !! (index + j)%nat = Some k ->
           results' !! j = Some (resultAt (index + j) a k).
Proof.
  induction answers as [|a answers IH]; intros index count results Hlen.
  - exists []. simpl. rewrite Nat.add_0_r, app_nil_r. split; [done|]. split; [done|].
    intros j a k Hj. by rewrite lookup_nil in Hj.
  - simpl in Hlen.
    destruct (lookup_lt_is_Some_2 key index) as [k Hk]; [lia|].
    cbn [gradeEach]. rewrite Hk.
    edestruct (IH (S index)) as (results' & Hrun & Hlen' & Hat); [lia|].
    rewrite Hrun. eexists (_ :: results'). split; [|split].
    + rewrite count_cons, <- app_assoc. cbn [app].
      assert (H0 : agreeFrom index (a :: answers) key 0
                   = (toUpperCase a =? toUpperCase k)%string).
      { unfold agreeFrom. simpl. by rewrite Nat.add_0_r, Hk. }
      rewrite H0. f_equal. f_equal.
      destruct (toUpperCase a =? toUpperCase k)%string; lia.
    + simpl. by rewrite Hlen'.
    + intros [|j] a' k' Ha' Hk'.
      * simpl in Ha'. rewrite Nat.add_0_r in Hk' |- *. simplify_eq.
        unfold resultAt. simpl. reflexivity.
      * simpl in Ha'. rewrite Nat.add_succ_r in Hk'. cbn [lookup list_lookup].
        replace (index + S j)%nat with (S index + j)%nat by lia.
        by apply Hat.
Qed.

Lemma getActive_live now phone (st : Store) session :
  st !! phone = Some session -> (now <= expiresAt session)%Z ->
  getActiveQuizSession now phone st = (Some session, st).
Proof.
  intros Hst Hnow. unfold getActiveQuizSession. rewrite Hst.
  destruct (Z.gtb_spec now (expiresAt session)); [lia|done].
Qed.

Lemma getActive_absent now phone (st : Store) :
  st !! phone = None -> getActiveQuizSession now phone st = (None, st).
Proof. intros Hst. unfold getActiveQuizSession. by rewrite Hst. Qed.

(** What a grading pass with the right number of answers returns. *)
Lemma gradeQuizAnswers_graded now phone answers (st : Store) session :
  st !! phone = Some session -> (now <= expiresAt session)%Z ->
  length answers = length (correctAnswers session) ->
  exists results,
    gradeQuizAnswers now phone answers st
    = Normal (Success
                {| score :=
                     percentScore (agreeingIndices answers (correctAnswers session))
                                  (length (correctAnswers session));
                   correctCount := agreeingIndices answers (correctAnswers session);
                   totalQuestions := length (correctAnswers session);
                   results := results;
                   gradedSubject := subject session |},
              delete phone st)
    /\ length results = length answers
    /\ forall i a k, answers !! i = Some a -> correctAnswers session !! i = Some k ->
         results !! i = Some (resultAt i a k).
Proof.
  intros Hst Hnow Hlen. unfold gradeQuizAnswers.
  rewrite (getActive_live _ _ _ _ Hst Hnow).
  rewrite (proj2 (Nat.eqb_eq _ _) Hlen). cbn [negb].
  destruct (gradeEach_spec (correctAnswers session) answers 0 0 [])
    as (results & Hrun & Hlen' & Hat); [simpl; lia|].
  rewrite Hrun. cbn [app Nat.add]. exists results.
  split; [reflexivity|]. split; [exact Hlen'|exact Hat].
Qed.

(** C1: a grading pass with as many answers as the key has letters
    succeeds, its [correctCount] is the number of indices at which the
    uppercased answer equals the uppercased key letter, and the result
    for question [i] carries that flag with both uppercased letters. *)
Theorem C1_correct_count_and_flags now phone answers (st : Store) session :
  st !! phone = Some session -> (now <= expiresAt session)%Z ->
  length answers = length (correctAnswers session) ->
  exists g st',
    gradeQuizAnswers now phone answers st = Normal (Success g, st')
    /\ correctCount g = agreeingIndices answers (correctAnswers session)
    /\ length (results g) = length answers
    /\ forall i a k, answers !! i = Some a -> correctAnswers session !! i = Some k ->
         results g !! i
         = Some {| questionNumber := i + 1;
                   userAnswer := toUpperCase a;
                   correctAnswer := toUpperCase k;
                   isCorrect := String.eqb (toUpperCase a) (toUpperCase k) |}.
Proof.
  intros Hst Hnow Hlen.
  destruct (gradeQuizAnswers_graded now phone answers st session Hst Hnow Hlen)
    as (results & Hrun & Hlen' & Hat).
  eexists _, _. split; [exact Hrun|]. simpl. repeat split; try done.
Qed.

End Grading.

Section Percentage.

Import JsString Server GradingSpec Number.

Lemma agreeingIndices_le answers key :
  (agreeingIndices answers key <= length answers)%nat.
Proof.
  unfold agreeingIndices.
  etransitivity; [apply length_filter|]. by rewrite length_seq.
Qed.

(** Without questions the quotient is 0 / 0 and the score is NaN. *)
Lemma percentScore_no_questions : percentScore 0 0 = NaN.
Proof. reflexivity. Qed.

(** Every score from 0 of 1 up to 39 of 39, computed in binary64 as the
    code does, against the exactly rounded percentage. *)
Lemma percentScore_table :
  Forall (fun total =>
            Forall (fun correct =>
                      percentScore correct total
                      = ofZ (roundedPercentage correct total))
                   (seq 0 (S total)))
         (seq 1 39).
Proof. apply (bool_decide_unpack _). vm_compute. reflexivity. Qed.

Lemma percentScore_exact correct total :
  (1 <= total <= 39)%nat -> (correct <= total)%nat ->
  percentScore correct total = ofZ (roundedPercentage correct total).
Proof.
  intros Htotal Hcorrect.
  pose proof percentScore_table as Htable.
  rewrite Forall_forall in Htable.
  specialize (Htable total). rewrite Forall_forall in Htable.
  apply Htable; apply elem_of_seq; lia.
Qed.

End Percentage.

Section PercentageOrder.

Import JsString Server GradingSpec Number.

(** Every percentage from 0 of 1 up to 200 of 200, computed in binary64
    with the product first, against the exactly rounded percentage. *)
Lemma percentageProductFirst_table :
  Forall (fun total =>
            Forall (fun correct =>
                      percentageProductFirst correct total
                      = ofZ (roundedPercentage correct total))
                   (seq 0 (S total)))
         (seq 1 200).
Proof. apply (bool_decide_unpack _). vm_compute. reflexivity. Qed.

Lemma percentageProductFirst_exact correct total :
  (1 <= total <= 200)%nat -> (correct <= total)%nat ->
  percentageProductFirst correct total = ofZ (roundedPercentage correct total).
Proof.
  intros Htotal Hcorrect.
  pose proof percentageProductFirst_table as Htable.
  rewrite Forall_forall in Htable.
  specialize (Htable total). rewrite Forall_forall in Htable.
  apply Htable; apply elem_of_seq; lia.
Qed.

(** C2 fails at 23 correct answers of 40: that is 57.5 percent, 58 when
    rounded, and the code returns 57.  It divides first; 23 / 40 is not
    exact in binary64 and its product with 100 lies below 57.5.  With
    the product first, as the specification's formula has it, the
    result is 58, and it is the exactly rounded percentage for every
    total up to 200.  The code gives the exactly rounded percentage for
    every total below 40, so 2 correct of 3 give 67 and 1 correct of 3
    gives 33. *)
Theorem C2_score_of_23_in_40 :
  (exists g st',
      gradeQuizAnswers 5 Sample.phone Sample.answers40 Sample.store40
      = Normal (Success g, st')
      /\ correctCount g = 23%nat /\ totalQuestions g = 40%nat
      /\ score g = ofZ 57
      /\ roundedPercentage 23 40 = 58%Z
      /\ score g <> ofZ (roundedPercentage (correctCount g) (totalQuestions g)))
  /\ percentageProductFirst 23 40 = ofZ 58
  /\ (forall correct total,
        (1 <= total <= 200)%nat -> (correct <= total)%nat ->
        percentageProductFirst correct total = ofZ (roundedPercentage correct total))
  /\ (forall now phone answers (st : Store) session,
        st !! phone = Some session -> (now <= expiresAt session)%Z ->
        length answers = length (correctAnswers session) ->
        (1 <= length (correctAnswers session) <= 39)%nat ->
        exists g st',
          gradeQuizAnswers now phone answers st = Normal (Success g, st')
          /\ score g = ofZ (roundedPercentage (correctCount g) (totalQuestions g)))
  /\ percentScore 2 3 = ofZ 67
  /\ percentScore 1 3 = ofZ 33.
Proof.
  split; [|split; [|split; [|split; [|split]]]].
  - eexists _, _. split; [vm_compute; reflexivity|].
    repeat split; try reflexivity. vm_compute. discriminate.
  - vm_compute. reflexivity.
  - apply percentageProductFirst_exact.
  - intros now phone answers st session Hst Hnow Hlen Htotal.
    destruct (gradeQuizAnswers_graded now phone answers st session Hst Hnow Hlen)
      as (results & Hrun & _).
    eexists _, _. split; [exact Hrun|]. cbn [score correctCount totalQuestions].
    apply percentScore_exact; [done|].
    rewrite <- Hlen. apply agreeingIndices_le.
  - reflexivity.
  - reflexivity.
Qed.

Lemma C2_witness :
  percentageProductFirst 92 160 = ofZ (roundedPercentage 92 160)
  /\ exists g st',
       gradeQuizAnswers 5 Sample.phone ["b"; "B"; "a"] Sample.store3
       = Normal (Success g, st')
       /\ score g = ofZ (roundedPercentage (correctCount g) (totalQuestions g)).
Proof.
  split.
  - apply (proj1 (proj2 (proj2 C2_score_of_23_in_40)) 92%nat 160%nat); lia.
  - apply (proj1 (proj2 (proj2 (proj2 C2_score_of_23_in_40)))
             5%Z Sample.phone ["b"; "B"; "a"] Sample.store3 Sample.session3);
      [vm_compute; reflexivity | vm_compute; discriminate | reflexivity
      | simpl; lia].
Defined.

End PercentageOrder.

Section Sessions.

Import JsString Server GradingSpec Number.

Lemma C1_witness :
  exists g st',
    gradeQuizAnswers 5 Sample.phone ["b"; "B"; "a"] Sample.store3 = Normal (Success g, st')
    /\ correctCount g = agreeingIndices ["b"; "B"; "a"] ["B"; "b"; "C"]
    /\ length (results g) = 3%nat
    /\ forall i a k, ["b"; "B"; "a"] !! i = Some a -> ["B"; "b"; "C"] !! i = Some k ->
         results g !! i
         = Some {| questionNumber := i + 1;
                   userAnswer := toUpperCase a;
                   correctAnswer := toUpperCase k;
                   isCorrect := String.eqb (toUpperCase a) (toUpperCase k) |}.
Proof.
  apply (C1_correct_count_and_flags 5 Sample.phone ["b"; "B"; "a"]
           Sample.store3 Sample.session3);
    [vm_compute; reflexivity | vm_compute; discriminate | reflexivity].
Defined.

(** C5: with a number of answers other than the key's length the result
    is the failure whose message names the required count; nothing is
    graded, the store is unchanged, and the session can still be graded
    afterwards. *)
Theorem C5_count_mismatch now phone answers (st : Store) session :
  st !! phone = Some session -> (now <= expiresAt session)%Z ->
  length answers <> length (correctAnswers session) ->
  gradeQuizAnswers now phone answers st
  = Normal (Failure ("❌ Please provide "
                     ++ JsString.ofNat (length (correctAnswers session))
                     ++ " answers." ++ LF ++ LF
                     ++ "*Format:* 1A 2C 3B" ++ LF ++ "*Or:* A C B"),
            st)
  /\ (forall now' answers',
        (now' <= expiresAt session)%Z ->
        length answers' = length (correctAnswers session) ->
        exists g,
          gradeQuizAnswers now' phone answers' st
          = Normal (Success g, delete phone st)).
Proof.
  intros Hst Hnow Hlen. split.
  - unfold gradeQuizAnswers. rewrite (getActive_live _ _ _ _ Hst Hnow).
    destruct (Nat.eqb_spec (length answers) (length (correctAnswers session)));
      [contradiction|reflexivity].
  - intros now' answers' Hnow' Hlen'.
    destruct (gradeQuizAnswers_graded now' phone answers' st session Hst Hnow' Hlen')
      as (results & Hrun & _).
    eexists. exact Hrun.
Qed.

Lemma C5_witness :
  gradeQuizAnswers 5 Sample.phone ["A"; "C"] Sample.store3
  = Normal (Failure ("❌ Please provide 3 answers." ++ LF ++ LF
                     ++ "*Format:* 1A 2C 3B" ++ LF ++ "*Or:* A C B"),
            Sample.store3)
  /\ (forall now' answers',
        (now' <= TTL)%Z -> length answers' = 3%nat ->
        exists g,
          gradeQuizAnswers now' Sample.phone answers' Sample.store3
          = Normal (Success g, delete Sample.phone Sample.store3)).
Proof.
  apply (C5_count_mismatch 5 Sample.phone ["A"; "C"] Sample.store3 Sample.session3);
    [vm_compute; reflexivity | vm_compute; discriminate | simpl; lia].
Defined.

End Sessions.

Section Overwrite.

Context {V : Type}.

(** The entries of a store under one key: one if the key is bound,
    none otherwise. *)
Lemma entries_of_key (m : gmap string V) (k : string) :
  length (filter (fun entry => entry.1 = k) (map_to_list m))
  = match m !! k with Some _ => 1%nat | None => 0%nat end.
Proof.
  induction m as [|i x m Hfresh IH] using map_ind.
  - by rewrite map_to_list_empty, lookup_empty.
  - rewrite (map_to_list_insert m i x Hfresh), filter_cons. cbn [fst].
    case_decide as Hik.
    + subst i. rewrite lookup_insert_eq. cbn [length]. rewrite IH. by rewrite Hfresh.
    + rewrite lookup_insert_ne by done. exact IH.
Qed.

End Overwrite.

Section Fallback.

Import JsString Regex Server.

(** C7, at the input "banana": the bare-letter pattern takes every A, B,
    C or D of the uppercased text, inside words too, so four answers
    come out; the intent fallback's own test for bare letters rejects
    the same text. *)
Theorem C7_banana_is_parsed_as_answers :
  parseQuizAnswers "banana" = ["B"; "A"; "A"; "A"]
  /\ AiHandler.looksLikeShortAnswer "banana" = false
  /\ AiHandler.looksLikeShortAnswer "A C B" = true.
Proof. repeat split; vm_compute; reflexivity. Qed.

(** C9, at the failing generation call: [generateQuiz] returns the
    fallback text, [startQuiz] reads three questions from it and gives
    each the default letter, and [extractCorrectAnswers] finds no answer
    key in it. *)
Theorem C9_fallback_quiz_has_no_key :
  (forall subject, AiHandler.generateQuiz (fun _ => None) subject = AiHandler.fallbackQuiz)
  /\ extractCorrectAnswers AiHandler.fallbackQuiz = []
  /\ (forall phone subject (st : WhatsappHandler.Store),
        exists q1 q2 q3 st',
          WhatsappHandler.startQuiz (fun _ => None) phone subject st
          = Normal ([q1; q2; q3], st')
          /\ WhatsappHandler.answer q1 = "A"
          /\ WhatsappHandler.answer q2 = "A"
          /\ WhatsappHandler.answer q3 = "A").
Proof.
  split; [reflexivity|]. split; [vm_compute; reflexivity|].
  intros phone subject st.
  unfold WhatsappHandler.startQuiz, WhatsappHandler.startQuizWith.
  cbn [AiHandler.generateQuiz].
  assert (Hparse :
    WhatsappHandler.parseQuestions
      (drop 1 (split WhatsappHandler.questionHeading AiHandler.fallbackQuiz))
    = Normal Sample.questions3).
  { vm_compute. reflexivity. }
  rewrite Hparse. eexists _, _, _, _. split; [reflexivity|]. by repeat split.
Qed.

End Fallback.

Section Incremental.

Import WhatsappHandler.

(** One [answerQuiz] call on a stored session whose current index is in
    bounds. *)
Lemma answerQuiz_step phone answer (st : Store) session :
  st !! phone = Some session ->
  (length (answersGiven session) < length (questions session))%nat ->
  exists question reply st',
    questions session !! length (answersGiven session) = Some question
    /\ answerQuiz phone answer st = Normal (reply, st')
    /\ (st' !! phone = None
        <-> S (length (answersGiven session)) = length (questions session))
    /\ (S (length (answersGiven session)) <> length (questions session) ->
        st' !! phone
        = Some {| subject := subject session;
                  questions := questions session;
                  answersGiven :=
                    (answersGiven session
                     ++ [ {| given := answer; correct := WhatsappHandler.answer question |} ])%list |}).
Proof.
  intros Hst Hlt.
  destruct (lookup_lt_is_Some_2 _ _ Hlt) as [question Hq].
  unfold answerQuiz. rewrite Hst, Hq. rewrite length_app. cbn [length].
  rewrite Nat.add_1_r.
  destruct (Nat.eqb_spec (S (length (answersGiven session))) (length (questions session)))
    as [Heq|Hne].
  - eexists _, _, _. split; [done|]. split; [done|]. split.
    + split; [done|]. intros _. apply lookup_delete_eq.
    + intros Hne. contradiction.
  - eexists _, _, _. split; [done|]. split; [done|]. split.
    + rewrite lookup_insert_eq. split; [discriminate|]. intros Heq. contradiction.
    + intros _. apply lookup_insert_eq.
Qed.

(** Every stored session with questions has answered fewer of them than
    there are. *)
Lemma reachable_in_bounds (st : Store) :
  reachable st ->
  forall phone session,
    st !! phone = Some session -> questions session <> [] ->
    (length (answersGiven session) < length (questions session))%nat.
Proof.
  induction 1 as [|quizText p subj st qs st' Hreach IH Hstart
                  |p answer st reply st' Hreach IH Hanswer];
    intros phone session Hst Hne.
  - by rewrite lookup_empty in Hst.
  - unfold startQuizWith in Hstart.
    destruct (parseQuestions _) as [qs'|]; [|discriminate].
    injection Hstart as -> <-.
    destruct (decide (p = phone)) as [->|Hp].
    + rewrite lookup_insert_eq in Hst. injection Hst as <-. simpl in *.
      destruct qs; [done|simpl; lia].
    + rewrite lookup_insert_ne in Hst by done. by apply (IH phone).
  - unfold answerQuiz in Hanswer.
    destruct (st !! p) as [current|] eqn:Hcur.
    + destruct (questions current !! length (answersGiven current))
        as [question|] eqn:Hq; [|discriminate].
      apply lookup_lt_Some in Hq.
      rewrite length_app in Hanswer. cbn [length] in Hanswer.
      destruct (Nat.eqb_spec (length (answersGiven current) + 1)
                  (length (questions current))) as [Heq|Hneq];
        injection Hanswer as _ <-.
      * destruct (decide (p = phone)) as [->|Hp].
        -- by rewrite lookup_delete_eq in Hst.
        -- rewrite lookup_delete_ne, lookup_insert_ne in Hst by done. by apply (IH phone).
      * destruct (decide (p = phone)) as [->|Hp].
        -- rewrite lookup_insert_eq in Hst. injection Hst as <-. simpl.
           rewrite length_app. simpl. lia.
        -- rewrite lookup_insert_ne in Hst by done. by apply (IH phone).
    + injection Hanswer as _ <-. by apply (IH phone).
Qed.

(** C10: in every store the handler can reach, a session with a
    non-empty question list has [answersGiven.length] below
    [questions.length]; an [answerQuiz] call on it reads the question at
    that index, returns, and deletes the session exactly when the number
    of answers reaches the number of questions.  A session started with
    no questions makes the first [answerQuiz] call throw, there being no
    current question. *)
Theorem C10_current_question_in_bounds :
  (forall (st : Store) phone session answer,
      reachable st ->
      st !! phone = Some session -> questions session <> [] ->
      (length (answersGiven session) < length (questions session))%nat
      /\ exists question reply st',
          questions session !! length (answersGiven session) = Some question
          /\ answerQuiz phone answer st = Normal (reply, st')
          /\ (st' !! phone = None
              <-> S (length (answersGiven session)) = length (questions session)))
  /\ (forall quizText phone subject answer (st st' : Store),
        startQuizWith quizText phone subject st = Normal ([], st') ->
        answerQuiz phone answer st' = TypeError).
Proof.
  split.
  - intros st phone session answer Hreach Hst Hne.
    pose proof (reachable_in_bounds st Hreach phone session Hst Hne) as Hlt.
    split; [exact Hlt|].
    destruct (answerQuiz_step phone answer st session Hst Hlt)
      as (question & reply & st' & Hq & Hrun & Hdel & _).
    by exists question, reply, st'.
  - intros quizText phone subject answer st st' Hstart.
    unfold startQuizWith in Hstart.
    destruct (parseQuestions _) as [qs|]; [|discriminate].
    injection Hstart as -> <-.
    unfold answerQuiz. by rewrite lookup_insert_eq.
Qed.

Lemma C10_witness :
  (length (answersGiven Sample.started3) < length (questions Sample.started3))%nat
  /\ exists question reply st',
      questions Sample.started3 !! length (answersGiven Sample.started3) = Some question
      /\ answerQuiz Sample.phone "B" Sample.startedStore = Normal (reply, st')
      /\ (st' !! Sample.phone = None
          <-> S (length (answersGiven Sample.started3))
              = length (questions Sample.started3)).
Proof.
  apply (proj1 C10_current_question_in_bounds Sample.startedStore Sample.phone
           Sample.started3 "B").
  - apply (reachable_start AiHandler.fallbackQuiz Sample.phone "Mathematics" ∅
             Sample.questions3 Sample.startedStore);
      [apply reachable_empty | vm_compute; reflexivity].
  - vm_compute. reflexivity.
  - discriminate.
Defined.

End Incremental.

Section Parser.

Import JsString Regex Server ParserSpec.

Lemma length_firstChars n s :
  String.length (firstChars n s) = Nat.min n (String.length s).
Proof.
  unfold firstChars. revert s.
  induction n as [|n IH]; intros [|c s]; simpl; try done.
  by rewrite IH.
Qed.

Lemma consumed_one c s : consumed (String c s) s = String c EmptyString.
Proof.
  unfold consumed, firstChars. cbn [String.length].
  replace (S (String.length s) - String.length s)%nat with 1%nat by lia.
  by destruct s.
Qed.

Lemma length_consumed s rest :
  (String.length rest <= String.length s)%nat ->
  String.length (consumed s rest) = (String.length s - String.length rest)%nat.
Proof. intros Hle. unfold consumed. rewrite length_firstChars. lia. Qed.

Lemma isDigit_not_AD c : isDigit c = true -> isAD c = false.
Proof.
  unfold isDigit, isAD. rewrite andb_true_iff, !N.leb_le. intros [_ Hhi].
  apply andb_false_iff. left. apply N.leb_gt. lia.
Qed.

Lemma iterate_digits {R : Type} (k : string -> captures -> option R) :
  (forall d s caps, isDigit d = true -> k (String d s) caps = None) ->
  forall n s caps,
    (String.length s <= n)%nat ->
    iterate (fun s1 caps1 k1 => run (Class isDigit) s1 caps1 k1) k n s caps
    = k (dropDigits s) caps.
Proof.
  intros Hk. induction n as [|n IH]; intros s caps Hn.
  - destruct s; [done|simpl in Hn; lia].
  - cbn [iterate run]. destruct s as [|d s1]; [done|].
    cbn [dropDigits]. destruct (isDigit d) eqn:Hd; [|done].
    cbn [String.length] in *.
    rewrite (proj2 (Nat.ltb_lt _ _)) by lia. rewrite IH by lia.
    destruct (k (dropDigits s1) caps); [done|]. by rewrite Hk.
Qed.

Lemma matchHere_pattern1 s :
  matchHere pattern1 s
  = match s with
    | String c s' =>
        if isDigit c then
          match dropDigits s' with
          | String l rest =>
              if isAD l
              then Some (MkResult (consumed s rest) [(1%nat, String l EmptyString)] rest)
              else None
          | EmptyString => None
          end
        else None
    | EmptyString => None
    end.
Proof.
  unfold matchHere, pattern1, Plus, digit. cbn [run].
  destruct s as [|c s']; [done|].
  destruct (isDigit c); [|done].
  match goal with
  | |- context [iterate _ ?k _ _ _] => pose proof (iterate_digits k) as Hloop
  end.
  cbn [run] in Hloop. rewrite Hloop; [| |done].
  - destruct (dropDigits s') as [|l rest]; [done|].
    destruct (isAD l); [|done]. by rewrite consumed_one.
  - intros d t caps Hd. by rewrite (isDigit_not_AD d Hd).
Qed.

Lemma matchAllFrom_skip r n s :
  (n <= String.length s)%nat ->
  matchAllFrom n r s = matchAllFrom 0 r (dropChars n s).
Proof.
  revert s. induction n as [|n IH]; intros s Hn.
  - by destruct s.
  - destruct s as [|c s]; [simpl in Hn; lia|].
    cbn [matchAllFrom dropChars]. apply IH. simpl in Hn. lia.
Qed.

Lemma dropChars_after_digits s l rest :
  dropDigits s = String l rest ->
  dropChars (String.length s - String.length rest) s = rest
  /\ (String.length rest < String.length s)%nat.
Proof.
  induction s as [|c s IH]; [done|].
  cbn [dropDigits]. destruct (isDigit c).
  - intros Hdd. destruct (IH Hdd) as [Hdrop Hlt]. cbn [String.length].
    replace (S (String.length s) - String.length rest)%nat
      with (S (String.length s - String.length rest)) by lia.
    cbn [dropChars]. split; [exact Hdrop|lia].
  - intros [= -> ->]. cbn [String.length].
    replace (S (String.length rest) - String.length rest)%nat with 1%nat by lia.
    split; [by destruct rest|lia].
Qed.

Lemma numberedLetters_hit s l rest :
  dropDigits s = String l rest -> isAD l = true ->
  numberedLetters true s = String l EmptyString :: numberedLetters false rest.
Proof.
  induction s as [|c s IH]; [done|].
  cbn [dropDigits numberedLetters]. destruct (isDigit c).
  - exact IH.
  - intros [= -> ->] Hl. by rewrite Hl.
Qed.

Lemma numberedLetters_miss s :
  match dropDigits s with
  | String l _ => isAD l = false
  | EmptyString => True
  end ->
  numberedLetters true s = numberedLetters false s.
Proof.
  destruct s as [|c s]; [done|].
  cbn [dropDigits numberedLetters]. destruct (isDigit c); [done|].
  intros Hl. by rewrite Hl.
Qed.

(** The matches of the numbered pattern, by induction on a bound of the
    length of the text. *)
Lemma matchAll_pattern1 n :
  forall s, (String.length s <= n)%nat ->
    omap (group 1) (matchAllFrom 0 pattern1 s) = numberedLetters false s
    /\ length (matchAllFrom 0 pattern1 s) = length (numberedLetters false s).
Proof.
  induction n as [|n IH]; intros s Hn.
  - destruct s; [|simpl in Hn; lia].
    cbn [matchAllFrom]. by rewrite matchHere_pattern1.
  - destruct s as [|c s']; [cbn [matchAllFrom]; by rewrite matchHere_pattern1|].
    cbn [String.length] in Hn.
    cbn [matchAllFrom]. rewrite matchHere_pattern1. cbn [numberedLetters].
    destruct (isDigit c); [|apply IH; lia].
    destruct (dropDigits s') as [|l rest] eqn:Hdd.
    { rewrite numberedLetters_miss by (by rewrite Hdd). apply IH; lia. }
    destruct (isAD l) eqn:Hl.
    2:{ rewrite numberedLetters_miss by (by rewrite Hdd). apply IH; lia. }
    destruct (dropChars_after_digits s' l rest Hdd) as [Hdrop Hlt].
    cbn [whole]. rewrite length_consumed by (cbn [String.length]; lia).
    cbn [String.length].
    replace (Nat.pred (S (String.length s') - String.length rest))
      with (String.length s' - String.length rest)%nat by lia.
    rewrite matchAllFrom_skip by lia. rewrite Hdrop.
    rewrite (numberedLetters_hit s' l rest Hdd Hl).
    destruct (IH rest) as [Hletters Hlength]; [lia|].
    cbn [omap list_omap group groups getGroup Nat.eqb length].
    by rewrite Hletters, Hlength.
Qed.

Lemma matchAll_pattern2 s :
  whole <$> matchAllFrom 0 pattern2 s = lettersAtoD s.
Proof.
  induction s as [|c s IH]; [done|].
  cbn [matchAllFrom lettersAtoD]. unfold matchHere, pattern2. cbn [run].
  destruct (isAD c); [|exact IH].
  rewrite consumed_one. cbn [whole String.length Nat.pred fmap list_fmap].
  f_equal. exact IH.
Qed.

(** What [parseQuizAnswers] returns, without regular expressions. *)
Lemma parseQuizAnswers_forms message :
  parseQuizAnswers message
  = let text := trim (toUpperCase message) in
    if (0 <? length (numberedLetters false text))%nat
    then numberedLetters false text
    else if (2 <=? length (lettersAtoD text))%nat then lettersAtoD text else [].
Proof.
  unfold parseQuizAnswers, matchAll. cbn zeta.
  destruct (matchAll_pattern1 _ (trim (toUpperCase message)) (le_n _))
    as [Hletters Hlength].
  by rewrite Hletters, Hlength, matchAll_pattern2.
Qed.

Lemma upperChar_idem c : upperChar (upperChar c) = upperChar c.
Proof. by destruct c as [[] [] [] [] [] [] [] []]. Qed.

Lemma upperChar_lowerChar c : upperChar (lowerChar c) = upperChar c.
Proof. by destruct c as [[] [] [] [] [] [] [] []]. Qed.

Lemma toUpperCase_idem s : toUpperCase (toUpperCase s) = toUpperCase s.
Proof.
  induction s as [|c s IH]; [done|].
  cbn. f_equal; [apply upperChar_idem|exact IH].
Qed.

Lemma toUpperCase_toLowerCase s : toUpperCase (toLowerCase s) = toUpperCase s.
Proof.
  induction s as [|c s IH]; [done|].
  cbn. f_equal; [apply upperChar_lowerChar|exact IH].
Qed.

Lemma isAD_letter c :
  isAD c = true ->
  String c EmptyString ∈ ["A"; "B"; "C"; "D"].
Proof.
  destruct c as [[] [] [] [] [] [] [] []]; try discriminate; intros _;
    set_solver.
Qed.

Lemma numberedLetters_letters b s a :
  a ∈ numberedLetters b s -> a ∈ ["A"; "B"; "C"; "D"].
Proof.
  revert b. induction s as [|c s IH]; intros b; cbn [numberedLetters].
  - by rewrite elem_of_nil.
  - destruct (isDigit c); [apply IH|].
    destruct (b && isAD c) eqn:Hc; [|apply IH].
    apply andb_true_iff in Hc as [_ Hc].
    rewrite elem_of_cons. intros [->|Ha]; [by apply isAD_letter|by apply (IH false)].
Qed.

Lemma lettersAtoD_letters s a :
  a ∈ lettersAtoD s -> a ∈ ["A"; "B"; "C"; "D"].
Proof.
  induction s as [|c s IH]; cbn [lettersAtoD].
  - by rewrite elem_of_nil.
  - destruct (isAD c) eqn:Hc; [|exact IH].
    rewrite elem_of_cons. intros [->|Ha]; [by apply isAD_letter|by apply IH].
Qed.

(** C6: the three sample replies parse to A, C, B; the numbered form,
    the letters directly behind runs of digits in text order, is tried
    first and the bare letters only when it finds nothing; the case of
    the input does not matter and every answer is one of the uppercase
    letters A to D. *)
Theorem C6_parser_forms :
  parseQuizAnswers "1A 2C 3B" = ["A"; "C"; "B"]
  /\ parseQuizAnswers "A C B" = ["A"; "C"; "B"]
  /\ parseQuizAnswers "a, c, b" = ["A"; "C"; "B"]
  /\ (forall message,
        let text := trim (toUpperCase message) in
        parseQuizAnswers message
        = if (0 <? length (numberedLetters false text))%nat
          then numberedLetters false text
          else if (2 <=? length (lettersAtoD text))%nat
               then lettersAtoD text else [])
  /\ (forall message,
        parseQuizAnswers (toLowerCase message) = parseQuizAnswers message
        /\ parseQuizAnswers (toUpperCase message) = parseQuizAnswers message)
  /\ (forall message a,
        a ∈ parseQuizAnswers message -> a ∈ ["A"; "B"; "C"; "D"]).
Proof.
  split; [vm_compute; reflexivity|].
  split; [vm_compute; reflexivity|].
  split; [vm_compute; reflexivity|].
  split; [exact parseQuizAnswers_forms|]. split.
  - intros message. unfold parseQuizAnswers.
    by rewrite toUpperCase_toLowerCase, toUpperCase_idem.
  - intros message a. rewrite parseQuizAnswers_forms. cbn zeta.
    destruct (0 <? _)%nat; [apply numberedLetters_letters|].
    destruct (2 <=? _)%nat; [apply lettersAtoD_letters|].
    by rewrite elem_of_nil.
Qed.

Lemma C6_witness : "C" ∈ ["A"; "B"; "C"; "D"].
Proof.
  apply (proj2 (proj2 (proj2 (proj2 (proj2 C6_parser_forms)))) "1A 2C 3B" "C").
  vm_compute. apply list_elem_of_further, list_elem_of_here.
Defined.

End Parser.

(** * Further properties of the code *)

Section ServerExtras.

Import JsString Server GradingSpec Number.




Lemma gradeEach_same_upper key (f : string -> string) answers :
  (forall a, toUpperCase (f a) = toUpperCase a) ->
  forall index count results,
    gradeEach key (f <$> answers) index count results
    = gradeEach key answers index count results.
Proof.
  intros Hf. induction answers as [|a answers IH]; intros index count results; [done|].
  cbn [fmap list_fmap gradeEach]. destruct (key !! index); [|done].
  rewrite Hf. apply IH.
Qed.






End ServerExtras.

Section Matcher.

Import JsString Regex RegexFacts.

Context {R : Type}.

Lemma endsWith_refl s : endsWith s s.
Proof. by exists EmptyString. Qed.

Lemma append_cons c (a b : string) : String c a ++ b = String c (a ++ b).
Proof. reflexivity. Qed.

Lemma append_assoc (a b c : string) : (a ++ b) ++ c = a ++ (b ++ c).
Proof. induction a as [|x a IH]; [done|]. by rewrite !append_cons, IH. Qed.

Lemma endsWith_trans s1 s2 s3 : endsWith s1 s2 -> endsWith s2 s3 -> endsWith s1 s3.
Proof. intros [p ->] [q ->]. exists (q ++ p). by rewrite append_assoc. Qed.

Lemma endsWith_tail c s : endsWith s (String c s).
Proof. by exists (String c EmptyString). Qed.

(** The matcher answers only through its continuation, called on what
    is left of the text. *)
Lemma run_origin (r : regex) :
  forall s caps (k : string -> captures -> option R) x,
    run r s caps k = Some x ->
    exists s' caps', endsWith s' s /\ k s' caps' = Some x.
Proof.
  induction r as [p| |r1 IH1 r2 IH2|r1 IH1 r2 IH2|r1 IH1|i r1 IH1];
    intros s caps k x; cbn [run].
  - destruct s as [|c s']; [done|]. destruct (p c); [|done].
    intros Hk. exists s', caps. split; [apply endsWith_tail|done].
  - intros Hk. exists s, caps. split; [apply endsWith_refl|done].
  - intros Hrun. apply IH1 in Hrun as (s1 & caps1 & Hs1 & Hrun).
    apply IH2 in Hrun as (s2 & caps2 & Hs2 & Hk).
    exists s2, caps2. split; [by eapply endsWith_trans|done].
  - destruct (run r1 s caps k) eqn:Hleft.
    + intros [= ->]. by apply IH1 in Hleft.
    + apply IH2.
  - generalize (String.length s) as n. intros n. revert s caps.
    induction n as [|n IHn]; intros s caps; cbn [iterate].
    + intros Hk. exists s, caps. split; [apply endsWith_refl|done].
    + destruct (run r1 s caps _) eqn:Hbody.
      * intros [= ->]. apply IH1 in Hbody as (s1 & caps1 & Hs1 & Hnext).
        destruct (String.length s1 <? String.length s)%nat; [|done].
        apply IHn in Hnext as (s2 & caps2 & Hs2 & Hk).
        exists s2, caps2. split; [by eapply endsWith_trans|done].
      * intros Hk. exists s, caps. split; [apply endsWith_refl|done].
  - intros Hrun. apply IH1 in Hrun as (s1 & caps1 & Hs1 & Hk).
    by exists s1, ((i, consumed s s1) :: caps1).
Qed.

Lemma hasChar_endsWith P s' s : endsWith s' s -> hasChar P s = false -> hasChar P s' = false.
Proof.
  intros [pre ->]. induction pre as [|c pre IH]; [done|].
  rewrite append_cons. cbn [hasChar]. intros [_ H]%orb_false_iff. by apply IH.
Qed.

Lemma everyChar_complete c : c ∈ everyChar.
Proof.
  unfold everyChar. apply list_elem_of_fmap. exists (nat_of_ascii c).
  split; [by rewrite ascii_nat_embedding|].
  apply elem_of_seq. pose proof (nat_ascii_bounded c). lia.
Qed.

(** A pattern that requires a character of a class does not match a
    text without such characters. *)
Lemma run_requires P (r : regex) :
  requires P r = true ->
  forall s caps (k : string -> captures -> option R),
    hasChar P s = false -> run r s caps k = None.
Proof.
  induction r as [p| |r1 IH1 r2 IH2|r1 IH1 r2 IH2|r1 IH1|i r1 IH1];
    cbn [requires]; intros Hreq s caps k Hs; cbn [run]; try done.
  - destruct s as [|c s']; [done|].
    cbn in Hs. apply orb_false_iff in Hs as [Hc _].
    rewrite forallb_forall in Hreq.
    specialize (Hreq c). rewrite <- list_elem_of_In in Hreq.
    specialize (Hreq (everyChar_complete c)). rewrite Hc in Hreq.
    by destruct (p c).
  - apply orb_true_iff in Hreq as [Hreq|Hreq]; [by apply IH1|].
    destruct (run r1 s caps _) eqn:Hrun; [|done].
    apply run_origin in Hrun as (s1 & caps1 & Hs1 & Hrun).
    rewrite IH2 in Hrun; [done|done|]. by eapply hasChar_endsWith.
  - apply andb_true_iff in Hreq as [Hreq1 Hreq2].
    by rewrite IH1, IH2.
  - by apply IH1.
Qed.

End Matcher.

Section MatchLists.

Import JsString Regex RegexFacts.

Lemma matchHere_requires P r s :
  requires P r = true -> hasChar P s = false -> matchHere r s = None.
Proof. intros Hreq Hs. unfold matchHere. by apply run_requires with (P := P). Qed.

Lemma exec_requires P r s :
  requires P r = true -> hasChar P s = false -> exec r s = None.
Proof.
  intros Hreq. induction s as [|c s IH]; intros Hs; cbn [exec].
  - by rewrite (matchHere_requires P).
  - rewrite (matchHere_requires P) by done.
    apply IH. cbn in Hs. by apply orb_false_iff in Hs as [_ Hs].
Qed.

(** Every match of a [g] pattern is a match at some position. *)
Lemma matchAllFrom_here r m :
  forall s skip, m ∈ matchAllFrom skip r s -> exists t, matchHere r t = Some m.
Proof.
  induction s as [|c s IH]; intros skip; destruct skip as [|skip];
    cbn [matchAllFrom].
  - destruct (matchHere r EmptyString) as [m'|] eqn:Hm; [|by rewrite elem_of_nil].
    rewrite list_elem_of_singleton. intros ->. by exists EmptyString.
  - by rewrite elem_of_nil.
  - destruct (matchHere r (String c s)) as [m'|] eqn:Hm; [|apply IH].
    rewrite elem_of_cons. intros [->|Hin]; [by exists (String c s)|by eapply IH].
  - apply IH.
Qed.

End MatchLists.

Section AnswerKey.

Import JsString Regex RegexFacts Server.

Lemma isADi_letter c :
  isADi c = true -> toUpperCase (String c EmptyString) ∈ ["A"; "B"; "C"; "D"].
Proof.
  destruct c as [[] [] [] [] [] [] [] []]; try discriminate; intros _;
    vm_compute; repeat constructor.
Qed.

(** A match of the answer pattern captures one letter a-d or A-D. *)
Lemma matchHere_answerPattern s m :
  matchHere answerPattern s = Some m ->
  exists c, group 1 m = Some (String c EmptyString) /\ isADi c = true.
Proof.
  unfold matchHere, answerPattern, numberedAnswer. intros Hrun.
  apply (run_origin (Plus digit)) in Hrun as (s1 & caps1 & _ & Hrun).
  apply (run_origin (Opt (Class dashOrColon))) in Hrun as (s2 & caps2 & _ & Hrun).
  apply (run_origin (Star space)) in Hrun as (s3 & caps3 & _ & Hrun).
  cbn [run] in Hrun. destruct s3 as [|c rest]; [done|].
  destruct (isADi c) eqn:Hc; [|done].
  injection Hrun as <-. exists c. split; [|done].
  unfold group. cbn [groups getGroup Nat.eqb]. by rewrite consumed_one.
Qed.

Lemma answers_of_match text a :
  a ∈ toUpperCase <$> omap (group 1) (matchAll answerPattern text) ->
  a ∈ ["A"; "B"; "C"; "D"].
Proof.
  rewrite list_elem_of_fmap. intros (letter & -> & Hin).
  apply list_elem_of_omap in Hin as (m & Hm & Hgroup).
  apply matchAllFrom_here in Hm as (t & Hm).
  apply matchHere_answerPattern in Hm as (c & Hc & Had).
  rewrite Hc in Hgroup. injection Hgroup as <-. by apply isADi_letter.
Qed.

Lemma extractFrom_letters ps text a :
  a ∈ extractFrom ps text -> a ∈ ["A"; "B"; "C"; "D"].
Proof.
  induction ps as [|p ps IH]; cbn [extractFrom]; [by rewrite elem_of_nil|].
  destruct (exec p text) as [m|]; [|exact IH].
  destruct (0 <? _)%nat; [apply answers_of_match|exact IH].
Qed.

Lemma extractFrom_requires P ps text :
  Forall (fun p => requires P p = true) ps ->
  hasChar P text = false -> extractFrom ps text = [].
Proof.
  intros Hps Htext. induction Hps as [|p ps Hp _ IH]; [done|].
  cbn [extractFrom]. by rewrite (exec_requires P).
Qed.

(** X7: every letter of an extracted answer key is one of the uppercase
    letters A to D, and a quiz text without a digit, or without any of
    the letters a-d or A-D, has no key at all. *)
Theorem X7_extracted_key_letters text :
  (forall a, a ∈ extractCorrectAnswers text -> a ∈ ["A"; "B"; "C"; "D"])
  /\ (hasChar isDigit text = false -> extractCorrectAnswers text = [])
  /\ (hasChar isADi text = false -> extractCorrectAnswers text = []).
Proof.
  split; [intros a; apply extractFrom_letters|]. split; intros Htext.
  - apply (extractFrom_requires isDigit); [|done].
    unfold patterns. repeat constructor.
  - apply (extractFrom_requires isADi); [|done].
    unfold patterns. repeat constructor.
Qed.

Lemma X7_witness :
  extractCorrectAnswers "Here are the correct answers: none" = [].
Proof.
  apply (proj1 (proj2 (X7_extracted_key_letters "Here are the correct answers: none"))).
  vm_compute. reflexivity.
Defined.

End AnswerKey.

Section Questions.

Import JsString Regex RegexFacts WhatsappHandler.

Lemma length_append (a b : string) :
  String.length (a ++ b) = (String.length a + String.length b)%nat.
Proof. induction a as [|c a IH]; [done|]. rewrite append_cons. cbn. by rewrite IH. Qed.

Lemma firstChars_append (pre rest : string) :
  firstChars (String.length pre) (pre ++ rest) = pre.
Proof.
  unfold firstChars. induction pre as [|c pre IH].
  - by destruct rest.
  - rewrite append_cons. cbn. by rewrite IH.
Qed.

Lemma consumed_append (pre rest : string) : consumed (pre ++ rest) rest = pre.
Proof.
  unfold consumed. rewrite length_append.
  replace (String.length pre + String.length rest - String.length rest)%nat
    with (String.length pre) by lia.
  apply firstChars_append.
Qed.

Lemma isDigit_not_dash d : isDigit d = true -> Ascii.eqb d "-" = false.
Proof. by destruct d as [[] [] [] [] [] [] [] []]. Qed.

Lemma isADi_not_dash l : isADi l = true -> Ascii.eqb l "-" = false.
Proof. by destruct l as [[] [] [] [] [] [] [] []]. Qed.

(** A match of the pair pattern is a digit, a dash and a letter. *)
Lemma matchHere_answerPair s m :
  matchHere answerPair s = Some m ->
  exists d l,
    whole m = String d (String "-" (String l EmptyString))
    /\ isDigit d = true /\ isADi l = true.
Proof.
  unfold matchHere, answerPair, digit, Chr. cbn [run].
  destruct s as [|d [|h [|l rest]]]; try done.
  - by destruct (isDigit d).
  - destruct (isDigit d); [|done]. by destruct (Ascii.eqb "-" h).
  - destruct (isDigit d) eqn:Hd; [|done].
    destruct (Ascii.eqb_spec "-" h) as [<-|]; [|done].
    destruct (isADi l) eqn:Hl; [|done].
    intros [= <-]. exists d, l. cbn [whole]. split; [|done].
    apply (consumed_append (String d (String "-" (String l EmptyString))) rest).
Qed.

Lemma splitChar_pair d l :
  isDigit d = true -> isADi l = true ->
  splitChar "-" (String d (String "-" (String l EmptyString))) !! 1%nat
  = Some (String l EmptyString).
Proof.
  intros Hd Hl. cbn [splitChar].
  rewrite (isDigit_not_dash d Hd), (isADi_not_dash l Hl). reflexivity.
Qed.

(** What [parseQuestion] returns for a block. *)
Lemma parseQuestion_returns block :
  exists question,
    parseQuestion block = Normal question
    /\ answer question ∈ ["A"; "B"; "C"; "D"]
    /\ (length (options question) <= 4)%nat
    /\ (forall line, line ∈ options question -> trim line <> EmptyString)
    /\ (forall text, q question = Some text -> trim text <> EmptyString).
Proof.
  unfold parseQuestion.
  set (lines := filter _ (splitChar _ block)).
  assert (Hlines : forall line, line ∈ lines -> trim line <> EmptyString).
  { intros line [Hline _]%list_elem_of_filter. by destruct (trim line). }
  assert (Hshape :
    forall ans, ans ∈ ["A"; "B"; "C"; "D"] ->
      let question := {| q := lines !! 0%nat; options := take 4 (drop 1 lines);
                         answer := ans |} in
      answer question ∈ ["A"; "B"; "C"; "D"]
      /\ (length (options question) <= 4)%nat
      /\ (forall line, line ∈ options question -> trim line <> EmptyString)
      /\ (forall text, q question = Some text -> trim text <> EmptyString)).
  { intros ans Hans question. subst question. cbn [answer options q].
    split; [done|]. split; [rewrite length_take; lia|]. split.
    - intros line Hline. apply Hlines.
      by apply (subseteq_drop 1 lines), (subseteq_take 4).
    - intros text Htext. apply Hlines. by eapply list_elem_of_lookup_2. }
  destruct (whole <$> matchAll answerPair _) as [|first rest] eqn:Hmatches.
  - eexists. split; [reflexivity|]. apply Hshape. repeat constructor.
  - assert (Hfirst : first ∈ whole <$> matchAll answerPair
                       (default EmptyString
                          (find (fun l => startsWith "correct answers" (toLowerCase l)) lines))).
    { rewrite Hmatches. apply list_elem_of_here. }
    apply list_elem_of_fmap in Hfirst as (m & -> & Hm).
    apply matchAllFrom_here in Hm as (t & Hm).
    apply matchHere_answerPair in Hm as (d & l & -> & Hd & Hl).
    rewrite (splitChar_pair d l Hd Hl).
    eexists. split; [reflexivity|]. apply Hshape. by apply isADi_letter.
Qed.

Lemma parseQuestions_returns blocks :
  exists questions,
    parseQuestions blocks = Normal questions
    /\ length questions = length blocks
    /\ Forall (fun question =>
                 answer question ∈ ["A"; "B"; "C"; "D"]
                 /\ (length (options question) <= 4)%nat
                 /\ (forall line, line ∈ options question -> trim line <> EmptyString)
                 /\ (forall text, q question = Some text -> trim text <> EmptyString))
              questions.
Proof.
  induction blocks as [|block blocks (questions & Hrun & Hlen & Hall)].
  - exists []. by repeat split.
  - destruct (parseQuestion_returns block) as (question & Hq & Hshape).
    exists (question :: questions). cbn [parseQuestions]. rewrite Hq, Hrun.
    split; [done|]. split; [simpl; by rewrite Hlen|]. by constructor.
Qed.

(** X8: [startQuiz] never throws, whatever text the generation returns:
    it stores a fresh session with one question per text block behind a
    question heading; every question has at most four options, none of
    them blank, and its answer is one of the letters A to D. *)
Theorem X8_startQuiz_always_stores quizText phone subject (st : Store) :
  exists questions,
    startQuizWith quizText phone subject st
    = Normal (questions,
              <[phone := {| subject := subject;
                            questions := questions;
                            answersGiven := [] |}]> st)
    /\ length questions = length (drop 1 (split questionHeading quizText))
    /\ Forall (fun question =>
                 answer question ∈ ["A"; "B"; "C"; "D"]
                 /\ (length (options question) <= 4)%nat
                 /\ (forall line, line ∈ options question -> trim line <> EmptyString)
                 /\ (forall text, q question = Some text -> trim text <> EmptyString))
              questions.
Proof.
  unfold startQuizWith.
  destruct (parseQuestions_returns (drop 1 (split questionHeading quizText)))
    as (questions & -> & Hlen & Hall).
  by exists questions.
Qed.

Lemma X8_witness :
  exists questions,
    startQuizWith AiHandler.fallbackQuiz Sample.phone "Mathematics" ∅
    = Normal (questions,
              <[Sample.phone := {| subject := "Mathematics";
                                   questions := questions;
                                   answersGiven := [] |}]> ∅)
    /\ length questions = 3%nat.
Proof.
  destruct (X8_startQuiz_always_stores AiHandler.fallbackQuiz Sample.phone
              "Mathematics" ∅) as (questions & Hrun & Hlen & _).
  exists questions. split; [exact Hrun|]. rewrite Hlen. vm_compute. reflexivity.
Defined.

End Questions.

Section Answering.

Import JsString WhatsappHandler Conversation.

(** X9: [answerQuiz] touches the sender's session only, and only by
    appending the new answer beside the answer of the current question:
    subject, questions and earlier answers stay as they were. *)
Theorem X9_answerQuiz_appends_only phone answer (st st' : Store) reply :
  answerQuiz phone answer st = Normal (reply, st') ->
  (forall other, other <> phone -> st' !! other = st !! other)
  /\ (forall session', st' !! phone = Some session' ->
        exists session question,
          st !! phone = Some session
          /\ questions session !! length (answersGiven session) = Some question
          /\ subject session' = subject session
          /\ questions session' = questions session
          /\ answersGiven session'
             = (answersGiven session
                ++ [ {| given := answer; correct := WhatsappHandler.answer question |} ])%list).
Proof.
  unfold answerQuiz. destruct (st !! phone) as [session|] eqn:Hst.
  - destruct (questions session !! _) as [question|] eqn:Hq; [|done].
    destruct (_ =? _)%nat; intros [= _ <-]; split.
    + intros other Hother. by rewrite lookup_delete_ne, lookup_insert_ne.
    + intros session'. by rewrite lookup_delete_eq.
    + intros other Hother. by rewrite lookup_insert_ne.
    + intros session'. rewrite lookup_insert_eq. intros [= <-].
      by exists session, question.
  - intros [= _ <-]. split; [done|]. intros session'. by rewrite Hst.
Qed.

Lemma X9_witness :
  <[Sample.phone :=
      {| subject := "Mathematics";
         questions := Sample.questions3;
         answersGiven := [ {| given := "b"; correct := "A" |} ] |}]>
    Sample.startedStore !! "+254700000000"
  = Sample.startedStore !! "+254700000000".
Proof.
  apply (proj1 (X9_answerQuiz_appends_only Sample.phone "b" Sample.startedStore _
                  {| finished := false; message := "❌ Wrong! Correct answer: A" |}
                  ltac:(vm_compute; reflexivity))).
  discriminate.
Defined.

Lemma answerEach_finishes phone (st : Store) answers :
  forall session,
    st !! phone = Some session ->
    answers <> [] ->
    (length (answersGiven session) + length answers
     = length (questions session))%nat ->
    exists replies,
      answerEach phone answers st = Normal (replies, delete phone st)
      /\ finished <$> replies
         = (replicate (length answers - 1) false ++ [true])%list.
Proof.
  revert st. induction answers as [|a answers IH]; intros st session Hst Hne Hlen; [done|].
  cbn [answerEach]. cbn [length] in Hlen.
  assert (Hlt : (length (answersGiven session) < length (questions session))%nat) by lia.
  destruct (answerQuiz_step phone a st session Hst Hlt)
    as (question & reply & st1 & Hq & Hrun & Hdel & Hkeep).
  rewrite Hrun.
  assert (Hst1 : st1 = if decide (answers = [])
                       then delete phone st
                       else <[phone := {| subject := subject session;
                                          questions := questions session;
                                          answersGiven :=
                                            (answersGiven session
                                             ++ [ {| given := a;
                                                     correct := WhatsappHandler.answer question |} ])%list |}]> st).
  { unfold answerQuiz in Hrun. rewrite Hst, Hq in Hrun.
    rewrite length_app in Hrun. cbn [length] in Hrun.
    destruct (Nat.eqb_spec (length (answersGiven session) + 1)
                (length (questions session))) as [Heq|Hneq];
      injection Hrun as _ <-; case_decide as Hnil.
    - by rewrite delete_insert_eq.
    - destruct answers; [done|simpl in Hlen; lia].
    - subst answers. simpl in Hlen. lia.
    - done. }
  assert (Hfin : finished reply = bool_decide (answers = [])).
  { unfold answerQuiz in Hrun. rewrite Hst, Hq in Hrun.
    rewrite length_app in Hrun. cbn [length] in Hrun.
    destruct (Nat.eqb_spec (length (answersGiven session) + 1)
                (length (questions session))) as [Heq|Hneq];
      injection Hrun as <- _; cbn [finished]; symmetry.
    - apply bool_decide_eq_true. destruct answers; [done|simpl in Hlen; lia].
    - apply bool_decide_eq_false. intros ->. simpl in Hlen. lia. }
  destruct answers as [|a' answers].
  - rewrite decide_True in Hst1 by done. subst st1. cbn [answerEach].
    eexists. split; [reflexivity|]. cbn. by rewrite Hfin.
  - rewrite decide_False in Hst1 by done. subst st1.
    match goal with
    | |- context [<[phone := ?s]> st] =>
        destruct (IH (<[phone := s]> st) s) as (replies & Hrest & Hflags)
    end.
    { apply lookup_insert_eq. }
    { done. }
    { cbn [answersGiven questions]. rewrite length_app. cbn [length] in *. lia. }
    rewrite Hrest, delete_insert_eq.
    eexists. split; [reflexivity|].
    cbn [fmap list_fmap]. rewrite Hfin. fold (fmap (M:=list) finished replies).
    rewrite Hflags. rewrite bool_decide_eq_false_2 by done.
    cbn [length]. by replace (S (S (length answers)) - 1)%nat
      with (S (S (length answers) - 1)) by lia.
Qed.

(** X10: a quiz of n questions is over after exactly n answers: the
    first n - 1 replies are not final, the n-th is, and after it the
    store is the one before the quiz without the sender's session. *)
Theorem X10_quiz_ends_after_all_answers quizText phone subject answers
        (st st1 : Store) questions :
  startQuizWith quizText phone subject st = Normal (questions, st1) ->
  questions <> [] -> length answers = length questions ->
  exists replies,
    answerEach phone answers st1 = Normal (replies, delete phone st)
    /\ finished <$> replies
       = (replicate (length questions - 1) false ++ [true])%list.
Proof.
  intros Hstart Hne Hlen.
  unfold startQuizWith in Hstart.
  destruct (parseQuestions _) as [questions'|]; [|discriminate].
  injection Hstart as -> <-.
  destruct (answerEach_finishes phone
              (<[phone := {| subject := subject;
                             WhatsappHandler.questions := questions;
                             answersGiven := [] |}]> st) answers
              {| subject := subject;
                 WhatsappHandler.questions := questions;
                 answersGiven := [] |})
    as (replies & Hrun & Hflags).
  { apply lookup_insert_eq. }
  { intros ->. by destruct questions. }
  { cbn [answersGiven WhatsappHandler.questions length]. lia. }
  rewrite delete_insert_eq in Hrun. rewrite Hlen in Hflags. by exists replies.
Qed.

Lemma X10_witness :
  exists replies,
    answerEach Sample.phone ["a"; "b"; "c"] Sample.startedStore
    = Normal (replies, delete Sample.phone ∅)
    /\ finished <$> replies
       = (replicate (length Sample.questions3 - 1) false ++ [true])%list.
Proof.
  apply (X10_quiz_ends_after_all_answers AiHandler.fallbackQuiz Sample.phone
           "Mathematics" ["a"; "b"; "c"] ∅ Sample.startedStore Sample.questions3);
    [vm_compute; reflexivity | discriminate | reflexivity].
Defined.

(** X11: the reply to an answer and the final score disagree about
    white space: an answer that equals the key only after trimming is
    told correct, and is not counted in the score of the final reply,
    which compares the untrimmed answer. *)
Theorem X11_trimmed_answer_is_correct_but_not_counted phone answer (st : Store)
        session question :
  st !! phone = Some session ->
  answersGiven session = [] -> questions session = [question] ->
  toUpperCase (trim answer) = toUpperCase (WhatsappHandler.answer question) ->
  toUpperCase answer <> toUpperCase (WhatsappHandler.answer question) ->
  answerQuiz phone answer st
  = Normal ({| finished := true;
               message := "✅ Correct!" ++ LF ++ "🎉 Quiz finished! Score: 0/1" |},
            delete phone st).
Proof.
  intros Hst Hgiven Hqs Htrim Hraw. unfold answerQuiz.
  rewrite Hst, Hgiven, Hqs. cbn [length lookup list_lookup app Nat.eqb].
  rewrite Htrim, String.eqb_refl. unfold totalCorrect.
  rewrite filter_cons, filter_nil. cbn [given correct].
  rewrite decide_False by done. by rewrite delete_insert_eq.
Qed.

Lemma X11_witness :
  answerQuiz Sample.phone " a"
    (<[Sample.phone := {| subject := "Mathematics";
                          questions := [ {| q := Some "1 + 1?";
                                            options := ["A) 2"; "B) 3"];
                                            answer := "A" |} ];
                          answersGiven := [] |}]> ∅)
  = Normal ({| finished := true;
               message := "✅ Correct!" ++ LF ++ "🎉 Quiz finished! Score: 0/1" |},
            delete Sample.phone
              (<[Sample.phone := {| subject := "Mathematics";
                                    questions := [ {| q := Some "1 + 1?";
                                                      options := ["A) 2"; "B) 3"];
                                                      answer := "A" |} ];
                                    answersGiven := [] |}]> ∅)).
Proof.
  eapply (X11_trimmed_answer_is_correct_but_not_counted Sample.phone " a");
    [vm_compute; reflexivity | reflexivity | reflexivity | reflexivity
    | vm_compute; discriminate].
Defined.

End Answering.

Section Subjects.

Import JsString JsStringMore Subject.

Lemma startsWith_trans p n h :
  startsWith p n = true -> startsWith n h = true -> startsWith p h = true.
Proof.
  revert n h. induction p as [|a p IH]; intros [|b n] [|c h]; cbn; try done.
  intros [Hab Hp]%andb_true_iff [Hbc Hn]%andb_true_iff.
  apply Ascii.eqb_eq in Hab as ->. rewrite Hbc. cbn. by eapply IH.
Qed.

Lemma includes_prefix p n h :
  startsWith p n = true -> includes n h = true -> includes p h = true.
Proof.
  intros Hp. induction h as [|c h IH]; cbn [includes].
  - rewrite !orb_false_r. by apply startsWith_trans.
  - intros [Hn|Hn]%orb_true_iff.
    + by rewrite (startsWith_trans p n _ Hp Hn).
    + rewrite (IH Hn). apply orb_true_r.
Qed.

Lemma lowerChar_upperChar c : lowerChar (upperChar c) = lowerChar c.
Proof. by destruct c as [[] [] [] [] [] [] [] []]. Qed.

Lemma lowerChar_idem c : lowerChar (lowerChar c) = lowerChar c.
Proof. by destruct c as [[] [] [] [] [] [] [] []]. Qed.

Lemma toLowerCase_toUpperCase s : toLowerCase (toUpperCase s) = toLowerCase s.
Proof.
  induction s as [|c s IH]; [done|].
  cbn. f_equal; [apply lowerChar_upperChar|exact IH].
Qed.

Lemma toLowerCase_idem s : toLowerCase (toLowerCase s) = toLowerCase s.
Proof.
  induction s as [|c s IH]; [done|].
  cbn. f_equal; [apply lowerChar_idem|exact IH].
Qed.

(** X12: [extractSubject] returns one of five names; it returns
    "Mathematics" exactly when the message names no subject, so a
    message that says "mathematics" is filed under "Math"; and the case
    of a message of ASCII text does not matter. *)
Theorem X12_extractSubject message :
  extractSubject message ∈ ["Math"; "English"; "Science"; "Kiswahili"; "Mathematics"]
  /\ (extractSubject message = "Mathematics"
      <-> forall s, s ∈ subjects -> includes s (toLowerCase message) = false)
  /\ (includes "mathematics" (toLowerCase message) = true ->
      extractSubject message = "Math")
  /\ (isAscii message = true ->
      extractSubject (toUpperCase message) = extractSubject message).
Proof.
  assert (Hfalse : forall s, s ∈ subjects ->
            s = "math" \/ s = "mathematics" \/ s = "english" \/ s = "science"
            \/ s = "kiswahili").
  { intros s Hs. unfold subjects in Hs.
    repeat (apply elem_of_cons in Hs as [->|Hs]; [tauto|]).
    by apply elem_of_nil in Hs. }
  unfold extractSubject, subjects. cbn [find].
  split; [|split; [|split]].
  - destruct (includes "math" _); [apply list_elem_of_here|].
    destruct (includes "mathematics" _);
      [do 4 apply list_elem_of_further; apply list_elem_of_here|].
    destruct (includes "english" _); [apply list_elem_of_further, list_elem_of_here|].
    destruct (includes "science" _);
      [do 2 apply list_elem_of_further; apply list_elem_of_here|].
    destruct (includes "kiswahili" _);
      [do 3 apply list_elem_of_further; apply list_elem_of_here|].
    do 4 apply list_elem_of_further. apply list_elem_of_here.
  - split.
    + destruct (includes "math" _) eqn:Hmath; [discriminate|].
      assert (Hmaths : includes "mathematics" (toLowerCase message) = false).
      { destruct (includes "mathematics" _) eqn:Hm; [|done].
        by rewrite (includes_prefix "math" "mathematics" _ eq_refl Hm) in Hmath. }
      rewrite Hmaths.
      destruct (includes "english" _) eqn:Henglish; [discriminate|].
      destruct (includes "science" _) eqn:Hscience; [discriminate|].
      destruct (includes "kiswahili" _) eqn:Hkiswahili; [discriminate|].
      intros _ s Hs.
      destruct (Hfalse s Hs) as [->|[->|[->|[->| ->]]]]; assumption.
    + intros Hnone.
      rewrite (Hnone "math"), (Hnone "mathematics"), (Hnone "english"),
        (Hnone "science"), (Hnone "kiswahili"); [reflexivity|..];
        repeat first [apply list_elem_of_here | apply list_elem_of_further].
  - intros Hmath.
    by rewrite (includes_prefix "math" "mathematics" _ eq_refl Hmath).
  - intros _. by rewrite toLowerCase_toUpperCase.
Qed.

Lemma X12_witness :
  extractSubject "Quiz me on Mathematics" = "Math"
  /\ extractSubject (toUpperCase "Quiz me on Kiswahili")
     = extractSubject "Quiz me on Kiswahili".
Proof.
  split.
  - apply (proj1 (proj2 (proj2 (X12_extractSubject "Quiz me on Mathematics")))).
    vm_compute. reflexivity.
  - apply (proj2 (proj2 (proj2 (X12_extractSubject "Quiz me on Kiswahili")))).
    vm_compute. reflexivity.
Defined.

End Subjects.

Section Addresses.

Import JsString JsStringMore Regex ParserSpec Delivery.

Lemma startsWith_append p s : startsWith p (p ++ s) = true.
Proof.
  induction p as [|c p IH]; [done|].
  rewrite append_cons. cbn [startsWith]. by rewrite Ascii.eqb_refl, IH.
Qed.

Lemma dropDigits_empty s : dropDigits s = EmptyString -> allChars isDigit s = true.
Proof.
  induction s as [|c s IH]; [done|]. cbn [dropDigits allChars].
  destruct (isDigit c); [exact IH|done].
Qed.

(** [/^\d+$/]: a text of digits, at least one. *)
Lemma testWhole_digits s :
  testWhole (Plus digit) s = true ->
  allChars isDigit s = true /\ s <> EmptyString.
Proof.
  unfold testWhole, Plus, digit. cbn [run].
  destruct s as [|c s]; [done|]. cbn [allChars].
  destruct (isDigit c); [|done].
  match goal with
  | |- context [iterate _ ?k _ _ _] => pose proof (iterate_digits k) as Hloop
  end.
  cbn [run] in Hloop. rewrite Hloop; [|done|done].
  destruct (dropDigits s) eqn:Hrest; [|done].
  intros _. split; [by apply dropDigits_empty|done].
Qed.

(** X13: an address the module computes for Twilio always starts with
    "whatsapp:": [normalizeWhatsAppNumber] returns such an address or
    nothing, and returns an address it has produced unchanged; for a raw
    number without the prefix and without a leading plus the address is
    "whatsapp:+" and the number without its spaces and dashes, which
    must be digits only; [getConfiguredFromNumber] returns such an
    address whatever the configuration. *)
Theorem X13_addresses_carry_the_prefix :
  (forall raw address,
      normalizeWhatsAppNumber raw = Some address ->
      startsWith "whatsapp:" address = true
      /\ normalizeWhatsAppNumber (Some address) = Some address)
  /\ (forall raw address,
        startsWith "whatsapp:" raw = false -> startsWith "+" raw = false ->
        normalizeWhatsAppNumber (Some raw) = Some address ->
        address = "whatsapp:+" ++ removeChars spaceOrDash raw
        /\ allChars isDigit (removeChars spaceOrDash raw) = true
        /\ removeChars spaceOrDash raw <> EmptyString)
  /\ (forall configured,
        startsWith "whatsapp:" (getConfiguredFromNumber configured) = true).
Proof.
  assert (Hkeep : forall address,
             startsWith "whatsapp:" address = true ->
             normalizeWhatsAppNumber (Some address) = Some address).
  { intros address Hprefix. unfold normalizeWhatsAppNumber. rewrite Hprefix.
    by destruct address. }
  split; [|split].
  - intros [raw|] address; [|done]. unfold normalizeWhatsAppNumber.
    destruct (isEmpty raw); [done|].
    destruct (startsWith "whatsapp:" raw) eqn:Hprefix.
    { intros [= <-]. split; [done|by apply Hkeep]. }
    destruct (startsWith "+" raw).
    { intros [= <-]. split; [apply startsWith_append|].
      apply Hkeep, startsWith_append. }
    destruct (testWhole _ _); [|done].
    intros [= <-].
    change ("whatsapp:+" ++ removeChars spaceOrDash raw)
      with ("whatsapp:" ++ String "+" (removeChars spaceOrDash raw)).
    split; [apply startsWith_append|]. apply Hkeep, startsWith_append.
  - intros raw address Hprefix Hplus. unfold normalizeWhatsAppNumber.
    rewrite Hprefix, Hplus. destruct (isEmpty raw); [done|].
    destruct (testWhole _ _) eqn:Hdigits; [|done].
    intros [= <-]. split; [done|]. by apply testWhole_digits.
  - intros [configured|]; [|done]. unfold getConfiguredFromNumber.
    destruct (negb (isEmpty configured)); cbn [andb]; [|done].
    destruct (startsWith "whatsapp:" configured) eqn:Hprefix; [done|].
    destruct (startsWith "+" configured); [apply startsWith_append|done].
Qed.

Lemma X13_witness :
  startsWith "whatsapp:" "whatsapp:+254712345678" = true
  /\ normalizeWhatsAppNumber (Some "whatsapp:+254712345678")
     = Some "whatsapp:+254712345678".
Proof.
  apply (proj1 X13_addresses_carry_the_prefix (Some "2547 1234-5678")).
  vm_compute. reflexivity.
Defined.

End Addresses.

Section Retry.

Import Delivery DeliverySpec Number.

Context {T E : Type}.
Variable send : nat -> settled T E.

Lemma pow2_succ (a : nat) : (2 ^ Z.of_nat (S a) = 2 * 2 ^ Z.of_nat a)%Z.
Proof. rewrite Nat2Z.inj_succ. apply Z.pow_succ_r. lia. Qed.

Lemma retryFrom_first_success k :
  forall attempt remaining response,
    (k <= remaining)%nat ->
    (forall j, (attempt <= j < attempt + k)%nat -> exists err, send j = Rejected err) ->
    send (attempt + k)%nat = Resolved response ->
    exists steps,
      retryFrom send attempt remaining = (Resolved response, steps)
      /\ sends steps = seq attempt (S k)
      /\ delays steps = backoff <$> seq attempt k.
Proof.
  induction k as [|k IH]; intros attempt remaining response Hk Hfail Hok.
  - rewrite Nat.add_0_r in Hok.
    destruct remaining; cbn [retryFrom]; rewrite Hok;
      (eexists; split; [reflexivity|]; split; reflexivity).
  - destruct (Hfail attempt) as [err Herr]; [lia|].
    destruct remaining as [|remaining]; [lia|].
    cbn [retryFrom]. rewrite Herr.
    destruct (IH (S attempt) remaining response) as (steps & Hrun & Hsends & Hwait).
    { lia. }
    { intros j Hj. apply Hfail. lia. }
    { by replace (S attempt + k)%nat with (attempt + S k)%nat by lia. }
    rewrite Hrun. eexists. split; [reflexivity|]. split.
    + cbn [sends omap list_omap]. fold (sends steps). by rewrite Hsends.
    + cbn [delays omap list_omap]. fold (delays steps). by rewrite Hwait.
Qed.

Lemma retryFrom_all_fail remaining :
  forall attempt err,
    (forall j, (attempt <= j < attempt + remaining)%nat ->
               exists err', send j = Rejected err') ->
    send (attempt + remaining)%nat = Rejected err ->
    exists steps,
      retryFrom send attempt remaining = (Rejected err, steps)
      /\ sends steps = seq attempt (S remaining)
      /\ delays steps = backoff <$> seq attempt remaining.
Proof.
  induction remaining as [|remaining IH]; intros attempt err Hfail Hlast.
  - rewrite Nat.add_0_r in Hlast. cbn [retryFrom]. rewrite Hlast.
    eexists. split; [reflexivity|]. split; reflexivity.
  - destruct (Hfail attempt) as [err' Herr']; [lia|].
    cbn [retryFrom]. rewrite Herr'.
    destruct (IH (S attempt) err) as (steps & Hrun & Hsends & Hwait).
    { intros j Hj. apply Hfail. lia. }
    { by replace (S attempt + remaining)%nat with (attempt + S remaining)%nat by lia. }
    rewrite Hrun. eexists. split; [reflexivity|]. split.
    + cbn [sends omap list_omap]. fold (sends steps). by rewrite Hsends.
    + cbn [delays omap list_omap]. fold (delays steps). by rewrite Hwait.
Qed.

Lemma retryFrom_bounded remaining :
  forall attempt,
    (length (sends (retryFrom send attempt remaining).2) <= S remaining)%nat
    /\ exists steps n, (retryFrom send attempt remaining).2 = (steps ++ [Send n])%list.
Proof.
  induction remaining as [|remaining IH]; intros attempt; cbn [retryFrom].
  - destruct (send attempt); cbn; (split; [lia|by exists [], attempt]).
  - destruct (send attempt); [cbn; split; [lia|by exists [], attempt]|].
    destruct (IH (S attempt)) as (Hlen & steps & n & Hsteps).
    destruct (retryFrom send (S attempt) remaining) as [outcome steps'].
    cbn [snd] in *. cbn [sends omap list_omap]. fold (sends steps'). cbn [length].
    split; [lia|]. exists (Send attempt :: Wait (backoff attempt) :: steps), n.
    by rewrite Hsteps.
Qed.

(** The first twenty-three delays, 500 ms up to 500 * 2^22 ms, are
    whole numbers of milliseconds that binary64 holds exactly, and none
    is longer than a timer waits for. *)
Lemma backoff_table :
  Forall (fun attempt =>
            backoff attempt = ofZ (backoffMs attempt)
            /\ (0 < backoffMs attempt <= TIMEOUT_MAX)%Z)
         (seq 0 23).
Proof. apply (bool_decide_unpack _). vm_compute. reflexivity. Qed.

Lemma backoff_exact k :
  (k <= 23)%nat ->
  backoff <$> seq 0 k = (fun attempt => ofZ (backoffMs attempt)) <$> seq 0 k
  /\ Forall (fun attempt => (0 < backoffMs attempt <= TIMEOUT_MAX)%Z) (seq 0 k).
Proof.
  intros Hk. pose proof backoff_table as Htable. rewrite Forall_forall in Htable.
  split.
  - apply list_fmap_ext. intros i attempt Hi.
    apply (Htable attempt). apply elem_of_seq.
    apply lookup_seq in Hi. lia.
  - apply Forall_forall. intros attempt Hin. apply (Htable attempt).
    apply elem_of_seq. apply elem_of_seq in Hin. lia.
Qed.

Lemma totalMs_from attempt k :
  foldr Z.add 0%Z (backoffMs <$> seq attempt k)
  = (500 * (2 ^ Z.of_nat (attempt + k) - 2 ^ Z.of_nat attempt))%Z.
Proof.
  revert attempt. induction k as [|k IH]; intros attempt.
  - rewrite Nat.add_0_r. cbn. lia.
  - cbn [seq fmap list_fmap foldr]. fold (fmap backoffMs (seq (S attempt) k)).
    rewrite IH. unfold backoffMs.
    replace (S attempt + k)%nat with (attempt + S k)%nat by lia.
    rewrite (pow2_succ attempt). lia.
Qed.

(** X14: the retry loop calls [sendWhatsAppMessage] at most
    [retries + 1] times and its last action is such a call, never a
    timer; it stops at the first call that resolves and returns its
    response, and rejects with the last error when every call rejects;
    behind the failed attempt [j] it hands [500 * Math.pow(2, j)] to a
    timer.  While at most twenty-three attempts fail these delays are
    the whole numbers 500, 1000, 2000, ... milliseconds, none longer
    than a timer waits for, [500 * (2^k - 1)] ms in all after [k]
    failures; the delay behind attempt 1016 is infinite. *)
Theorem X14_retry_with_backoff retries :
  ((length (sends (sendWhatsAppMessageWithRetry send retries).2) <= S retries)%nat
   /\ exists steps n,
        (sendWhatsAppMessageWithRetry send retries).2 = (steps ++ [Send n])%list)
  /\ (forall k response,
        (k <= retries)%nat ->
        (forall j, (j < k)%nat -> exists err, send j = Rejected err) ->
        send k = Resolved response ->
        exists steps,
          sendWhatsAppMessageWithRetry send retries = (Resolved response, steps)
          /\ sends steps = seq 0 (S k)
          /\ delays steps = backoff <$> seq 0 k)
  /\ (forall err,
        (forall j, (j < retries)%nat -> exists err', send j = Rejected err') ->
        send retries = Rejected err ->
        exists steps,
          sendWhatsAppMessageWithRetry send retries = (Rejected err, steps)
          /\ sends steps = seq 0 (S retries)
          /\ delays steps = backoff <$> seq 0 retries)
  /\ (forall k,
        (k <= 23)%nat ->
        backoff <$> seq 0 k = (fun attempt => ofZ (backoffMs attempt)) <$> seq 0 k
        /\ Forall (fun attempt => (0 < backoffMs attempt <= TIMEOUT_MAX)%Z) (seq 0 k)
        /\ totalMs k = (500 * (2 ^ Z.of_nat k - 1))%Z)
  /\ backoff 1016 = S754_infinity false.
Proof.
  unfold sendWhatsAppMessageWithRetry. split; [apply retryFrom_bounded|].
  split; [|split; [|split]].
  - intros k response Hk Hfail Hok.
    apply (retryFrom_first_success k 0 retries response Hk).
    + intros j Hj. apply Hfail. lia.
    + exact Hok.
  - intros err Hfail Hlast.
    apply (retryFrom_all_fail retries 0 err).
    + intros j Hj. apply Hfail. lia.
    + exact Hlast.
  - intros k Hk. destruct (backoff_exact k Hk) as [Hexact Hshort].
    split; [exact Hexact|]. split; [exact Hshort|].
    unfold totalMs. rewrite totalMs_from. rewrite Nat.add_0_l. cbn. lia.
  - vm_compute. reflexivity.
Qed.

End Retry.

Section RetryWitness.

Import Delivery DeliverySpec Number.

(** Two failures, then a success, under the default of two retries. *)
Lemma X14_witness :
  (exists steps,
      sendWhatsAppMessageWithRetry
        (fun n => if (n <? 2)%nat then Rejected "ETIMEDOUT" else Resolved "SM1") 2
      = (Resolved "SM1", steps)
      /\ sends steps = [0; 1; 2]%nat
      /\ delays steps = [ofZ 500; ofZ 1000])
  /\ (exists steps,
        sendWhatsAppMessageWithRetry
          (fun n => @Rejected string string "ETIMEDOUT") 2
        = (Rejected "ETIMEDOUT", steps)
        /\ sends steps = [0; 1; 2]%nat
        /\ delays steps = [ofZ 500; ofZ 1000]).
Proof.
  split.
  - destruct (X14_retry_with_backoff
                (fun n => if (n <? 2)%nat then Rejected "ETIMEDOUT" else Resolved "SM1") 2)
      as (_ & Hfirst & _ & Hexact & _).
    destruct (Hfirst 2%nat "SM1") as (steps & Hrun & Hsends & Hdelays).
    + lia.
    + intros j Hj. exists "ETIMEDOUT".
      destruct j as [|[|j]]; [reflexivity|reflexivity|lia].
    + reflexivity.
    + exists steps. split; [exact Hrun|]. split; [exact Hsends|].
      rewrite Hdelays. apply (Hexact 2%nat). lia.
  - destruct (X14_retry_with_backoff (fun n => @Rejected string string "ETIMEDOUT") 2)
      as (_ & _ & Hlast & Hexact & _).
    destruct (Hlast "ETIMEDOUT") as (steps & Hrun & Hsends & Hdelays).
    + intros j Hj. by exists "ETIMEDOUT".
    + reflexivity.
    + exists steps. split; [exact Hrun|]. split; [exact Hsends|].
      rewrite Hdelays. apply (Hexact 2%nat). lia.
Defined.

End RetryWitness.

Section Soundness.

Import JsString JsStringMore Regex RegexLang.

Context {R : Type}.

Lemma append_nil_r (s : string) : s ++ EmptyString = s.
Proof. induction s as [|c s IH]; [done|]. by rewrite append_cons, IH. Qed.

(** Whatever the matcher hands to its continuation is the text without
    a word of the pattern's language in front. *)
Lemma run_sound (r : regex) :
  forall s caps (k : string -> captures -> option R) x,
    run r s caps k = Some x ->
    exists w s' caps', s = w ++ s' /\ lang r w /\ k s' caps' = Some x.
Proof.
  induction r as [p| |r1 IH1 r2 IH2|r1 IH1 r2 IH2|r1 IH1|i r1 IH1];
    intros s caps k x; cbn [run lang].
  - destruct s as [|c s']; [done|]. destruct (p c) eqn:Hc; [|done].
    intros Hk. exists (String c EmptyString), s', caps. eauto.
  - intros Hk. by exists EmptyString, s, caps.
  - intros Hrun. apply IH1 in Hrun as (w1 & s1 & caps1 & -> & Hw1 & Hrun).
    apply IH2 in Hrun as (w2 & s2 & caps2 & -> & Hw2 & Hk).
    exists (w1 ++ w2), s2, caps2. rewrite append_assoc. eauto 10.
  - destruct (run r1 s caps k) eqn:Hleft.
    + intros [= ->]. apply IH1 in Hleft as (w & s' & caps' & ? & ? & ?).
      exists w, s', caps'. eauto.
    + intros Hright. apply IH2 in Hright as (w & s' & caps' & ? & ? & ?).
      exists w, s', caps'. eauto.
  - generalize (String.length s) as n. intros n. revert s caps.
    induction n as [|n IHn]; intros s caps; cbn [iterate].
    + intros Hk. exists EmptyString, s, caps. split; [done|]. split; [|done].
      by exists [].
    + destruct (run r1 s caps _) eqn:Hbody.
      * intros [= ->]. apply IH1 in Hbody as (w1 & s1 & caps1 & -> & Hw1 & Hnext).
        destruct (String.length s1 <? String.length (w1 ++ s1))%nat; [|done].
        apply IHn in Hnext as (w2 & s2 & caps2 & -> & (ws & -> & Hws) & Hk).
        exists (w1 ++ concatAll ws), s2, caps2. rewrite append_assoc.
        split; [done|]. split; [|done]. exists (w1 :: ws). split; [done|].
        by constructor.
      * intros Hk. exists EmptyString, s, caps. split; [done|]. split; [|done].
        by exists [].
  - intros Hrun. apply IH1 in Hrun as (w & s1 & caps1 & -> & Hw & Hk).
    exists w, s1, ((i, consumed (w ++ s1) s1) :: caps1). eauto.
Qed.

End Soundness.

Section Languages.

Import JsString JsStringMore Regex RegexLang.

(** A pattern between [^] and [$] accepts words of its language only. *)
Lemma testWhole_lang r s : testWhole r s = true -> lang r s.
Proof.
  unfold testWhole. destruct (run r s [] _) eqn:Hrun; [|done]. intros _.
  apply run_sound in Hrun as (w & s' & caps' & -> & Hw & Hend).
  destruct s'; [|done]. by rewrite append_nil_r.
Qed.

Lemma lang_star_class p w : lang (Star (Class p)) w -> allChars p w = true.
Proof.
  intros (ws & -> & Hws). induction Hws as [|w ws (c & -> & Hc) _ IH]; [done|].
  cbn [concatAll foldr]. rewrite append_cons. cbn [allChars]. by rewrite Hc.
Qed.

Lemma lang_plus_class p w :
  lang (Plus (Class p)) w ->
  exists c w', w = String c w' /\ p c = true /\ allChars p w' = true.
Proof.
  intros (w1 & w2 & -> & (c & -> & Hc) & Hw2).
  exists c, w2. split; [done|]. split; [done|]. by apply lang_star_class.
Qed.

End Languages.

Section IntentAndParser.

Import JsString JsStringMore Regex RegexLang ParserSpec AiHandler Intent Server.

Lemma isDigit_upperChar c : isDigit (upperChar c) = isDigit c.
Proof. by destruct c as [[] [] [] [] [] [] [] []]. Qed.

Lemma isSpace_upperChar c : isSpace (upperChar c) = isSpace c.
Proof. by destruct c as [[] [] [] [] [] [] [] []]. Qed.

Lemma isSpace_lowerChar c : isSpace (lowerChar c) = isSpace c.
Proof. by destruct c as [[] [] [] [] [] [] [] []]. Qed.

Lemma isSpace_plain c :
  isSpace c = true -> isDigit (upperChar c) = false /\ isAD (upperChar c) = false.
Proof. by destruct c as [[] [] [] [] [] [] [] []]. Qed.

Lemma isADi_plain c : isADi c = true -> isDigit (upperChar c) = false.
Proof. by destruct c as [[] [] [] [] [] [] [] []]. Qed.

Lemma toUpperCase_append a b : toUpperCase (a ++ b) = toUpperCase a ++ toUpperCase b.
Proof.
  induction a as [|c a IH]; [done|].
  rewrite append_cons. cbn. rewrite append_cons. f_equal. exact IH.
Qed.

(** Trimming commutes with a change of case. *)
Lemma trim_mapChars f s :
  (forall c, isSpace (f c) = isSpace c) ->
  trim (mapChars f s) = mapChars f (trim s).
Proof.
  intros Hf. unfold trim.
  assert (Hstart : forall t, trimStart (mapChars f t) = mapChars f (trimStart t)).
  { induction t as [|c t IH]; [done|]. cbn [mapChars trimStart].
    rewrite Hf. by destruct (isSpace c). }
  assert (Hend : forall t, trimEnd (mapChars f t) = mapChars f (trimEnd t)).
  { induction t as [|c t IH]; [done|]. cbn [mapChars trimEnd]. rewrite IH, Hf.
    destruct (trimEnd t); cbn [mapChars]; [by destruct (isSpace c)|done]. }
  by rewrite Hstart, Hend.
Qed.

Lemma upper_of_lower_trimmed message :
  toUpperCase (trim (toLowerCase message)) = trim (toUpperCase message).
Proof.
  unfold toLowerCase, toUpperCase.
  rewrite (trim_mapChars lowerChar) by apply isSpace_lowerChar.
  rewrite (trim_mapChars upperChar) by apply isSpace_upperChar.
  apply toUpperCase_toLowerCase.
Qed.

(** Making every run of white space one space changes neither the
    numbered letters nor the letters of a text. *)
Lemma numberedLetters_collapse s :
  forall b inRun, (inRun = true -> b = false) ->
    numberedLetters b (toUpperCase (collapseSpaces inRun s))
    = numberedLetters b (toUpperCase s).
Proof.
  induction s as [|c s IH]; intros b inRun Hrun; [done|].
  cbn [collapseSpaces]. destruct (isSpace c) eqn:Hc.
  - destruct (isSpace_plain c Hc) as [Hd Ha].
    cbn [toUpperCase mapChars numberedLetters]. rewrite Hd, Ha, andb_false_r.
    destruct inRun.
    + rewrite (Hrun eq_refl). by apply IH.
    + cbn [toUpperCase mapChars numberedLetters].
      destruct (isSpace_plain " " eq_refl) as [-> ->].
      rewrite andb_false_r. by apply IH.
  - cbn [toUpperCase mapChars numberedLetters].
    destruct (isDigit (upperChar c)); [by apply IH|].
    destruct (b && isAD (upperChar c)); [f_equal|]; by apply IH.
Qed.

Lemma lettersAtoD_collapse s :
  forall inRun,
    lettersAtoD (toUpperCase (collapseSpaces inRun s)) = lettersAtoD (toUpperCase s).
Proof.
  induction s as [|c s IH]; intros inRun; [done|].
  cbn [collapseSpaces]. destruct (isSpace c) eqn:Hc.
  - destruct (isSpace_plain c Hc) as [_ Ha].
    cbn [toUpperCase mapChars lettersAtoD]. rewrite Ha.
    destruct inRun; [apply IH|]. cbn [toUpperCase mapChars lettersAtoD].
    destruct (isSpace_plain " " eq_refl) as [_ ->]. apply IH.
  - cbn [toUpperCase mapChars lettersAtoD].
    destruct (isAD (upperChar c)); [f_equal|]; apply IH.
Qed.

(** The letters the parser finds behind a group of the first pattern. *)
Lemma numberedLetters_digits ds s b :
  allChars isDigit ds = true ->
  numberedLetters b (toUpperCase (ds ++ s))
  = numberedLetters (b || negb (isEmpty ds)) (toUpperCase s).
Proof.
  revert b. induction ds as [|d ds IH]; intros b Hds.
  - by rewrite orb_false_r.
  - cbn [allChars] in Hds. apply andb_true_iff in Hds as [Hd Hds].
    rewrite append_cons. cbn [toUpperCase mapChars numberedLetters].
    rewrite isDigit_upperChar, Hd. fold (toUpperCase (ds ++ s)).
    rewrite IH by done. cbn. by rewrite orb_true_r.
Qed.

Lemma numberedLetters_spaces sp s :
  allChars isSpace sp = true ->
  numberedLetters false (toUpperCase (sp ++ s)) = numberedLetters false (toUpperCase s).
Proof.
  induction sp as [|c sp IH]; intros Hsp; [done|].
  cbn [allChars] in Hsp. apply andb_true_iff in Hsp as [Hc Hsp].
  destruct (isSpace_plain c Hc) as [Hd _].
  rewrite append_cons. cbn [toUpperCase mapChars numberedLetters]. rewrite Hd.
  cbn [andb]. by apply IH.
Qed.

Lemma numberedGroup_one_letter w :
  lang numberedGroup w ->
  forall b s,
    length (numberedLetters b (toUpperCase (w ++ s)))
    = S (length (numberedLetters false (toUpperCase s))).
Proof.
  unfold numberedGroup, digit, space. cbn [lang].
  intros (w1 & w2 & -> & Hdigits & (w3 & w4 & -> & (l & -> & Hl) & Hspaces)) b s.
  apply lang_plus_class in Hdigits as (d & ds & -> & Hd & Hds).
  apply lang_star_class in Hspaces.
  rewrite !append_assoc.
  rewrite (numberedLetters_digits (String d ds)) by (cbn; by rewrite Hd).
  cbn [isEmpty negb]. rewrite orb_true_r, append_cons.
  cbn [toUpperCase mapChars numberedLetters].
  rewrite (isADi_plain l Hl). unfold isADi in Hl. rewrite Hl. cbn [andb length].
  change (EmptyString ++ w4 ++ s) with (w4 ++ s).
  by rewrite numberedLetters_spaces.
Qed.

Lemma quizAnswerPattern_letters w :
  lang quizAnswerPattern w ->
  (2 <= length (numberedLetters false (toUpperCase w)) <= 5)%nat.
Proof.
  unfold quizAnswerPattern, Opt. cbn [lang].
  intros (w1 & t1 & -> & Hw1 & (w2 & t2 & -> & Hw2 & Ht2)).
  assert (Htail : forall t,
    (lang numberedGroup t \/ t = EmptyString) ->
    (length (numberedLetters false (toUpperCase t)) <= 1)%nat).
  { intros t [Ht| ->]; [|cbn; lia].
    rewrite <- (append_nil_r t), (numberedGroup_one_letter t Ht). cbn. lia. }
  rewrite (numberedGroup_one_letter _ Hw1), (numberedGroup_one_letter _ Hw2).
  destruct Ht2 as [(w3 & t3 & -> & Hw3 & Ht3)| ->]; [|cbn; lia].
  rewrite (numberedGroup_one_letter _ Hw3).
  destruct Ht3 as [(w4 & t4 & -> & Hw4 & Ht4)| ->]; [|cbn; lia].
  rewrite (numberedGroup_one_letter _ Hw4).
  pose proof (Htail t4 Ht4). lia.
Qed.

Lemma allChars_append p a b :
  allChars p (a ++ b) = allChars p a && allChars p b.
Proof.
  induction a as [|c a IH]; [done|].
  rewrite append_cons. cbn [allChars]. by rewrite IH, andb_assoc.
Qed.

Lemma lettersAtoD_append a b :
  lettersAtoD (a ++ b) = (lettersAtoD a ++ lettersAtoD b)%list.
Proof.
  induction a as [|c a IH]; [done|].
  rewrite append_cons. cbn [lettersAtoD]. destruct (isAD c); [cbn|]; by rewrite IH.
Qed.

Lemma numberedLetters_none s :
  allChars letterOrSpace s = true -> numberedLetters false (toUpperCase s) = [].
Proof.
  induction s as [|c s IH]; [done|]. cbn [allChars].
  intros [Hc Hs]%andb_true_iff.
  cbn [toUpperCase mapChars numberedLetters].
  assert (Hd : isDigit (upperChar c) = false).
  { apply orb_true_iff in Hc as [Hc|Hc]; [by apply isADi_plain|].
    by apply isSpace_plain. }
  rewrite Hd. cbn [andb]. by apply IH.
Qed.

Lemma spacedLetter_one_letter w :
  lang spacedLetter w ->
  allChars letterOrSpace w = true /\ length (lettersAtoD (toUpperCase w)) = 1%nat.
Proof.
  unfold spacedLetter, space. cbn [lang].
  intros (w1 & w2 & -> & Hspaces & (l & -> & Hl)).
  apply lang_plus_class in Hspaces as (c & sp & -> & Hc & Hsp).
  assert (Hall : forall t, allChars isSpace t = true ->
            allChars letterOrSpace t = true /\ lettersAtoD (toUpperCase t) = []).
  { induction t as [|x t IH]; [done|]. cbn [allChars].
    intros [Hx Ht]%andb_true_iff. destruct (IH Ht) as [IH1 IH2].
    destruct (isSpace_plain x Hx) as [_ Ha].
    unfold letterOrSpace at 1. rewrite Hx, orb_true_r. cbn [andb].
    split; [done|]. cbn [toUpperCase mapChars lettersAtoD]. by rewrite Ha. }
  destruct (Hall (String c sp)) as [Hsp1 Hsp2]; [cbn; by rewrite Hc|].
  rewrite allChars_append, Hsp1, toUpperCase_append, lettersAtoD_append, Hsp2.
  cbn [allChars app toUpperCase mapChars lettersAtoD].
  unfold letterOrSpace. rewrite Hl. unfold isADi in Hl. by rewrite Hl.
Qed.

Lemma shortAnswerPattern_letters w :
  lang shortAnswerPattern w ->
  allChars letterOrSpace w = true
  /\ (2 <= length (lettersAtoD (toUpperCase w)) <= 5)%nat.
Proof.
  assert (Hcat : forall a b n m,
    allChars letterOrSpace a = true /\ length (lettersAtoD (toUpperCase a)) = n ->
    allChars letterOrSpace b = true /\ length (lettersAtoD (toUpperCase b)) = m ->
    allChars letterOrSpace (a ++ b) = true
    /\ length (lettersAtoD (toUpperCase (a ++ b))) = (n + m)%nat).
  { intros a b n m [Ha1 Ha2] [Hb1 Hb2].
    rewrite allChars_append, Ha1, Hb1, toUpperCase_append, lettersAtoD_append,
      length_app, Ha2, Hb2. done. }
  unfold shortAnswerPattern, Opt. cbn [lang].
  intros (w0 & t1 & -> & (l & -> & Hl) & (w1 & t2 & -> & Hw1 & Ht2)).
  assert (H0 : allChars letterOrSpace (String l EmptyString) = true
               /\ length (lettersAtoD (toUpperCase (String l EmptyString))) = 1%nat).
  { cbn. unfold letterOrSpace. rewrite Hl. unfold isADi in Hl. by rewrite Hl. }
  apply spacedLetter_one_letter in Hw1.
  assert (Hrest : exists n, (n <= 3)%nat
            /\ allChars letterOrSpace t2 = true
            /\ length (lettersAtoD (toUpperCase t2)) = n).
  { destruct Ht2 as [(w2 & t3 & -> & Hw2 & Ht3)| ->]; [|exists 0%nat; split; [lia|done]].
    apply spacedLetter_one_letter in Hw2.
    destruct Ht3 as [(w3 & t4 & -> & Hw3 & Ht4)| ->].
    - apply spacedLetter_one_letter in Hw3.
      destruct Ht4 as [Hw4| ->].
      + apply spacedLetter_one_letter in Hw4.
        exists 3%nat. split; [lia|].
        apply (Hcat w2 _ 1%nat 2%nat Hw2). by apply (Hcat w3 _ 1%nat 1%nat).
      + exists 2%nat. split; [lia|].
        apply (Hcat w2 _ 1%nat 1%nat Hw2). by rewrite append_nil_r.
    - exists 1%nat. split; [lia|]. by rewrite append_nil_r. }
  destruct Hrest as (n & Hn & Ht2all).
  pose proof (Hcat _ _ _ _ H0 (Hcat _ _ _ _ Hw1 Ht2all)) as [Hall Hlen].
  split; [exact Hall|]. rewrite Hlen. lia.
Qed.

(** X15: a message the fallback of [detectIntent] takes for a quiz
    answer is one [parseQuizAnswers] reads two to five answers from. *)
Theorem X15_fallback_quiz_answers_parse message :
  detectIntentFallback message = "QUIZ_ANSWER" ->
  (2 <= length (parseQuizAnswers message) <= 5)%nat.
Proof.
  unfold detectIntentFallback. cbn zeta.
  destruct (testWhole quizAnswerPattern _ || testWhole shortAnswerPattern _) eqn:Htest.
  2:{ destruct (includes "register student" _); [discriminate|].
      destruct (includes "register teacher" _); [discriminate|].
      destruct (includes "register parent" _); [discriminate|].
      destruct (includes "check" _ || includes "performance" _); [discriminate|].
      destruct (includes "quiz" _); [discriminate|].
      destruct (includes "record grade" _); [discriminate|].
      destruct (includes "class stat" _); discriminate. }
  intros _. rewrite parseQuizAnswers_forms. cbn zeta.
  rewrite <- upper_of_lower_trimmed.
  set (msg := trim (toLowerCase message)) in *.
  rewrite <- (numberedLetters_collapse msg false false) by done.
  rewrite <- (lettersAtoD_collapse msg false).
  apply orb_true_iff in Htest as [Hquiz|Hshort].
  - apply testWhole_lang, quizAnswerPattern_letters in Hquiz.
    rewrite (proj2 (Nat.ltb_lt _ _)) by lia. done.
  - apply testWhole_lang, shortAnswerPattern_letters in Hshort as [Hall Hlen].
    rewrite (numberedLetters_none _ Hall).
    change (0 <? length (@nil string))%nat with false. cbv iota.
    rewrite (proj2 (Nat.leb_le _ _)) by lia. done.
Qed.

Lemma X15_witness : (2 <= length (parseQuizAnswers "1a 2C  3b") <= 5)%nat.
Proof.
  apply (X15_fallback_quiz_answers_parse "1a 2C  3b"). vm_compute. reflexivity.
Defined.

(** X16: the intent of the fallback does not depend on the case of a
    message of ASCII text, and a message that says "check" or
    "performance" is never filed as a quiz request, a grade recording,
    class statistics or help, whatever else it says. *)
Theorem X16_fallback_case_and_priority message :
  (isAscii message = true ->
   detectIntentFallback (toUpperCase message) = detectIntentFallback message)
  /\ (includes "check" (trim (toLowerCase message)) = true
      \/ includes "performance" (trim (toLowerCase message)) = true ->
      detectIntentFallback message
      ∈ ["QUIZ_ANSWER"; "REGISTER_STUDENT"; "REGISTER_TEACHER"; "REGISTER_PARENT";
         "CHECK_PERFORMANCE"]).
Proof.
  split.
  - intros _. unfold detectIntentFallback. by rewrite toLowerCase_toUpperCase.
  - intros Hcheck. unfold detectIntentFallback. cbn zeta.
    destruct (_ || _); [apply list_elem_of_here|].
    destruct (includes "register student" _);
      [apply list_elem_of_further, list_elem_of_here|].
    destruct (includes "register teacher" _);
      [do 2 apply list_elem_of_further; apply list_elem_of_here|].
    destruct (includes "register parent" _);
      [do 3 apply list_elem_of_further; apply list_elem_of_here|].
    assert (Hor : includes "check" (trim (toLowerCase message))
                  || includes "performance" (trim (toLowerCase message)) = true).
    { apply orb_true_iff. exact Hcheck. }
    rewrite Hor. do 4 apply list_elem_of_further. apply list_elem_of_here.
Qed.

Lemma X16_witness :
  detectIntentFallback (toUpperCase "class stats") = detectIntentFallback "class stats"
  /\ detectIntentFallback "Check class stats"
     ∈ ["QUIZ_ANSWER"; "REGISTER_STUDENT"; "REGISTER_TEACHER"; "REGISTER_PARENT";
        "CHECK_PERFORMANCE"].
Proof.
  split.
  - apply (proj1 (X16_fallback_case_and_priority "class stats")).
    vm_compute. reflexivity.
  - apply (proj2 (X16_fallback_case_and_priority "Check class stats")).
    left. vm_compute. reflexivity.
Defined.

End IntentAndParser.

Section ParserEdges.

Import JsString JsStringMore Regex RegexFacts ParserSpec Server.

Lemma hasChar_toUpperCase P s :
  hasChar P (toUpperCase s) = hasChar (fun c => P (upperChar c)) s.
Proof. induction s as [|c s IH]; [done|]. cbn. by rewrite <- IH. Qed.

Lemma hasChar_trim P s : hasChar P s = false -> hasChar P (trim s) = false.
Proof.
  assert (Hstart : forall t, hasChar P t = false -> hasChar P (trimStart t) = false).
  { induction t as [|c t IH]; [done|]. cbn [hasChar trimStart].
    intros [Hc Ht]%orb_false_iff. destruct (isSpace c); [by apply IH|].
    cbn [hasChar]. by rewrite Hc, Ht. }
  assert (Hend : forall t, hasChar P t = false -> hasChar P (trimEnd t) = false).
  { induction t as [|c t IH]; [done|]. cbn [hasChar trimEnd].
    intros [Hc Ht]%orb_false_iff. specialize (IH Ht).
    destruct (trimEnd t).
    - destruct (isSpace c); [done|]. cbn [hasChar]. by rewrite Hc.
    - cbn [hasChar] in *. by rewrite Hc, IH. }
  intros Hs. unfold trim. by apply Hend, Hstart.
Qed.

Lemma lettersAtoD_none s : hasChar isAD s = false -> lettersAtoD s = [].
Proof.
  induction s as [|c s IH]; [done|]. cbn [hasChar lettersAtoD].
  intros [-> Hs]%orb_false_iff. by apply IH.
Qed.

Lemma numberedLetters_no_letter s b :
  hasChar isAD s = false -> numberedLetters b s = [].
Proof.
  revert b. induction s as [|c s IH]; intros b; [done|]. cbn [hasChar numberedLetters].
  intros [-> Hs]%orb_false_iff. rewrite andb_false_r.
  destruct (isDigit c); by apply IH.
Qed.

Lemma numberedLetters_no_digit s :
  hasChar isDigit s = false -> numberedLetters false s = [].
Proof.
  induction s as [|c s IH]; [done|]. cbn [hasChar numberedLetters].
  intros [-> Hs]%orb_false_iff. cbn [andb]. by apply IH.
Qed.

(** X17: a message of ASCII text without any of the letters a-d or
    A-D, the empty message included, gives no answers; and a message
    without a digit never gives exactly one answer: a lone letter is an
    answer only behind a number. *)
Theorem X17_parser_edges message :
  (isAscii message = true -> hasChar isADi message = false ->
   parseQuizAnswers message = [])
  /\ (hasChar isDigit message = false -> length (parseQuizAnswers message) <> 1%nat).
Proof.
  rewrite parseQuizAnswers_forms. cbn zeta. split.
  - intros _ Hletters.
    assert (Htext : hasChar isAD (trim (toUpperCase message)) = false).
    { apply hasChar_trim. by rewrite hasChar_toUpperCase. }
    by rewrite (numberedLetters_no_letter _ _ Htext), (lettersAtoD_none _ Htext).
  - intros Hdigits.
    assert (Htext : hasChar isDigit (trim (toUpperCase message)) = false).
    { apply hasChar_trim. rewrite hasChar_toUpperCase.
      erewrite <- Hdigits. clear. induction message as [|c s IH]; [done|].
      cbn [hasChar]. by rewrite isDigit_upperChar, IH. }
    rewrite (numberedLetters_no_digit _ Htext).
    change (0 <? length (@nil string))%nat with false. cbv iota.
    destruct (Nat.leb_spec 2 (length (lettersAtoD (trim (toUpperCase message)))));
      [lia|done].
Qed.

Lemma X17_witness :
  parseQuizAnswers "Yes!" = [] /\ length (parseQuizAnswers "I think B") <> 1%nat.
Proof.
  split.
  - apply (proj1 (X17_parser_edges "Yes!")); vm_compute; reflexivity.
  - apply (proj2 (X17_parser_edges "I think B")). vm_compute. reflexivity.
Defined.

End ParserEdges.

Section NoHeading.

Import JsString JsStringMore Regex RegexFacts WhatsappHandler.

Lemma splitFrom_no_match P r :
  requires P r = true ->
  forall s piece,
    hasChar P s = false -> length (splitFrom 0 r piece s) = 1%nat.
Proof.
  intros Hreq. induction s as [|c s IH]; intros piece Hs; [done|].
  cbn [splitFrom]. rewrite (matchHere_requires P r _ Hreq Hs).
  apply IH. cbn [hasChar] in Hs. by apply orb_false_iff in Hs as [_ Hs].
Qed.

Lemma split_no_match P r s :
  requires P r = true -> hasChar P s = false -> length (split r s) = 1%nat.
Proof.
  intros Hreq Hs. unfold split. destruct s as [|c s].
  - by rewrite (matchHere_requires P r _ Hreq Hs).
  - by apply (splitFrom_no_match P).
Qed.

(** X18: when the generated text has no question heading (no capital Q,
    or no digit, in it), [startQuiz] stores a session without
    questions, and every answer the sender then gives makes
    [answerQuiz] throw. *)
Theorem X18_text_without_headings quizText phone subject (st : Store) :
  hasChar (Ascii.eqb "Q") quizText = false \/ hasChar isDigit quizText = false ->
  startQuizWith quizText phone subject st
  = Normal ([], <[phone := {| subject := subject;
                              questions := [];
                              answersGiven := [] |}]> st)
  /\ forall answer,
      answerQuiz phone answer
        (<[phone := {| subject := subject; questions := []; answersGiven := [] |}]> st)
      = TypeError.
Proof.
  intros Htext.
  assert (Hsplit : length (split questionHeading quizText) = 1%nat).
  { destruct Htext as [Hq|Hd].
    - by apply (split_no_match (Ascii.eqb "Q")).
    - by apply (split_no_match isDigit). }
  split.
  - unfold startQuizWith.
    destruct (split questionHeading quizText) as [|piece [|]]; try done.
  - intros answer. unfold answerQuiz. by rewrite lookup_insert_eq.
Qed.

Lemma X18_witness :
  startQuizWith "Sorry, I cannot help with that." Sample.phone "Mathematics" ∅
  = Normal ([], <[Sample.phone := {| subject := "Mathematics";
                                     questions := [];
                                     answersGiven := [] |}]> ∅)
  /\ forall answer,
      answerQuiz Sample.phone answer
        (<[Sample.phone := {| subject := "Mathematics";
                              questions := [];
                              answersGiven := [] |}]> ∅)
      = TypeError.
Proof.
  apply (X18_text_without_headings "Sorry, I cannot help with that.").
  left. vm_compute. reflexivity.
Defined.

End NoHeading.

(** * The session store as an object *)

Section StoreObject.

Import JsString Number Server SessionObject.

Lemma get_own name (o : object) session :
  own o !! name = Some session -> get name o = Some (VSession session).
Proof. intros Hown. unfold get. by rewrite Hown. Qed.

Lemma get_not_own name (o : object) :
  own o !! name = None -> get name o = inherited o name.
Proof. intros Hown. unfold get. by rewrite Hown. Qed.

Lemma inherited_remove name other (o : object) :
  inherited (remove name o) other = inherited o other.
Proof. reflexivity. Qed.

Lemma get_remove_eq name (o : object) :
  get name (remove name o) = inherited o name.
Proof. unfold get, remove. cbn [own]. by rewrite lookup_delete_eq. Qed.

Lemma get_remove_ne name other (o : object) :
  other <> name -> get other (remove name o) = get other o.
Proof.
  intros Hother. unfold get, remove. cbn [own].
  by rewrite lookup_delete_ne.
Qed.

Lemma remove_not_own name (o : object) :
  own o !! name = None -> remove name o = o.
Proof.
  intros Hown. destruct o as [st p]. unfold remove. cbn [own proto] in *.
  by rewrite delete_id.
Qed.

(** Under [__proto__] every object inherits something. *)
Lemma inherited_proto (o : object) name :
  inherited o name = None -> String.eqb name "__proto__" = false.
Proof.
  unfold inherited, fromObjectPrototype.
  destruct (String.eqb name "__proto__") eqn:Hname; [|done].
  apply String.eqb_eq in Hname. subst name.
  destruct (proto o); [|discriminate]. cbn. discriminate.
Qed.

Lemma set_own name session (o : object) :
  String.eqb name "__proto__" = false ->
  set name session o = {| own := <[name := session]> (own o); proto := proto o |}.
Proof. intros Hname. unfold set. by rewrite Hname. Qed.

Lemma get_set_eq name session (o : object) :
  get name (set name session o) = Some (VSession session).
Proof.
  unfold set. destruct (String.eqb name "__proto__") eqn:Hname.
  - destruct (own o !! name) as [old|] eqn:Hown.
    + apply get_own. cbn [own]. apply lookup_insert_eq.
    + unfold get. cbn [own]. rewrite Hown.
      apply String.eqb_eq in Hname. subst name. reflexivity.
  - apply get_own. cbn [own]. apply lookup_insert_eq.
Qed.

(** The lookup, by what is read under the name. *)
Lemma getActive_session now phone (o : object) session :
  get phone o = Some (VSession session) ->
  getActiveQuizSession now phone o
  = if (now >? expiresAt session)%Z then (None, remove phone o)
    else (Some (VSession session), o).
Proof. intros Hget. unfold getActiveQuizSession. by rewrite Hget. Qed.

Lemma getActive_undefined now phone (o : object) :
  get phone o = None -> getActiveQuizSession now phone o = (None, o).
Proof. intros Hget. unfold getActiveQuizSession. by rewrite Hget. Qed.

Lemma getActive_other now phone (o : object) v :
  get phone o = Some v -> (forall session, v <> VSession session) ->
  getActiveQuizSession now phone o = if truthy v then (Some v, o) else (None, o).
Proof.
  intros Hget Hv. unfold getActiveQuizSession. rewrite Hget.
  destruct v as [session| | | | |]; try (by destruct (truthy _)).
  by destruct (Hv session).
Qed.

(** Where nothing is inherited under the name, the functions on the
    object are those on its own properties. *)
Lemma getActive_agrees now phone (o : object) :
  inherited o phone = None ->
  getActiveQuizSession now phone o
  = (VSession <$> (Server.getActiveQuizSession now phone (own o)).1,
     {| own := (Server.getActiveQuizSession now phone (own o)).2; proto := proto o |}).
Proof.
  intros Hplain. unfold Server.getActiveQuizSession.
  destruct (own o !! phone) as [session|] eqn:Hown.
  - rewrite (getActive_session now phone o session (get_own _ _ _ Hown)).
    destruct o as [st p]. by destruct (now >? expiresAt session)%Z.
  - rewrite getActive_undefined by (by rewrite get_not_own).
    by destruct o.
Qed.

Lemma gradeQuizAnswers_agrees now phone answers (o : object) :
  inherited o phone = None ->
  gradeQuizAnswers now phone answers o
  = match Server.gradeQuizAnswers now phone answers (own o) with
    | TypeError => TypeError
    | Normal (outcome, st') => Normal (outcome, {| own := st'; proto := proto o |})
    end.
Proof.
  intros Hplain. unfold gradeQuizAnswers, Server.gradeQuizAnswers.
  rewrite (getActive_agrees now phone o Hplain).
  destruct (Server.getActiveQuizSession now phone (own o)) as [[session|] st'];
    cbn [fst snd fmap option_fmap option_map]; [|done].
  destruct (negb _); [done|].
  by destruct (gradeEach _ _ _ _ _) as [[count results]|].
Qed.

Lemma createQuizSession_agrees now1 now2 phone subject quizText key (o : object) :
  String.eqb phone "__proto__" = false ->
  createQuizSession now1 now2 phone subject quizText key o
  = {| own := Server.createQuizSession now1 now2 phone subject quizText key (own o);
       proto := proto o |}.
Proof. intros Hname. unfold createQuizSession. by rewrite set_own. Qed.

(** The pass over the answers does not throw behind the test of their
    number. *)
Lemma gradeQuizAnswers_session now phone answers (o : object) session :
  get phone o = Some (VSession session) -> (now <= expiresAt session)%Z ->
  (length answers <> length (correctAnswers session) ->
   gradeQuizAnswers now phone answers o
   = Normal (Failure (pleaseProvide (length (correctAnswers session))), o))
  /\ (length answers = length (correctAnswers session) ->
      exists g, gradeQuizAnswers now phone answers o = Normal (Success g, remove phone o)).
Proof.
  intros Hget Hnow. unfold gradeQuizAnswers.
  rewrite (getActive_session now phone o session Hget).
  destruct (Z.gtb_spec now (expiresAt session)); [lia|].
  split; intros Hlen.
  - by destruct (Nat.eqb_spec (length answers) (length (correctAnswers session))).
  - rewrite (proj2 (Nat.eqb_eq _ _) Hlen). cbn [negb].
    destruct (gradeEach_spec (correctAnswers session) answers 0 0 [])
      as (results & -> & _); [simpl; lia|].
    eexists. reflexivity.
Qed.

Lemma gradeQuizAnswers_absent now phone answers (o : object) :
  get phone o = None ->
  gradeQuizAnswers now phone answers o = Normal (Failure noActiveQuiz, o).
Proof.
  intros Hget. unfold gradeQuizAnswers. by rewrite getActive_undefined.
Qed.

(** C3, as stated, fails in two ways.  At the instant of expiry, [now]
    equal to [expiresAt], the lookup still returns the session and
    keeps it.  And for an owner named like a method of
    [Object.prototype] the lookup returns that method although no
    session is stored. *)
Lemma C3_counterexample :
  (own Sample.object3 !! Sample.phone = Some Sample.session3
   /\ (1800000 >= expiresAt Sample.session3)%Z
   /\ getActiveQuizSession 1800000 Sample.phone Sample.object3
      = (Some (VSession Sample.session3), Sample.object3))
  /\ (own empty !! "constructor" = None
      /\ getActiveQuizSession 0 "constructor" empty
         = (Some (VFunction "constructor"), empty)).
Proof.
  split; [split; [|split]|split]; vm_compute; solve [reflexivity | discriminate].
Qed.

(** C3 (amended): for an owner under whose name the store inherits
    nothing, the lookup returns the stored session exactly while
    [now <= expiresAt]; once [now > expiresAt] it returns none and
    deletes the record; a session created at [t0] is returned at
    [t0 + 29m59s] and gone at [t0 + 30m01s]. *)
Theorem C3_lookup_until_expiry now phone (o : object) :
  inherited o phone = None ->
  (forall v,
      (getActiveQuizSession now phone o).1 = Some v
      <-> exists session,
            v = VSession session
            /\ own o !! phone = Some session /\ (now <= expiresAt session)%Z)
  /\ (forall session,
        own o !! phone = Some session -> (expiresAt session < now)%Z ->
        getActiveQuizSession now phone o = (None, remove phone o)
        /\ get phone (remove phone o) = None)
  /\ (forall t0 t1 subject quizText key,
        (t0 <= t1 < t0 + 1000)%Z ->
        let created := createQuizSession t0 t1 phone subject quizText key o in
        (exists session,
            getActiveQuizSession (t0 + (29 * 60 + 59) * 1000) phone created
            = (Some (VSession session), created)
            /\ createdAt session = t0 /\ Server.subject session = subject)
        /\ getActiveQuizSession (t0 + (30 * 60 + 1) * 1000) phone created
           = (None, remove phone created)
        /\ get phone (remove phone created) = None).
Proof.
  intros Hplain. split; [|split].
  - intros v. destruct (own o !! phone) as [s|] eqn:Hown.
    + rewrite (getActive_session now phone o s (get_own _ _ _ Hown)).
      destruct (Z.gtb_spec now (expiresAt s)); cbn [fst]; split.
      * discriminate.
      * intros (session & _ & [= <-] & ?). lia.
      * intros [= <-]. exists s. split; [done|]. split; [done|lia].
      * by intros (session & -> & [= <-] & _).
    + rewrite getActive_undefined by (by rewrite get_not_own).
      cbn [fst]. split; [discriminate|]. by intros (session & _ & ? & _).
  - intros session Hown Hlate.
    rewrite (getActive_session now phone o session (get_own _ _ _ Hown)).
    destruct (Z.gtb_spec now (expiresAt session)); [|lia].
    split; [done|]. by rewrite get_remove_eq.
  - intros t0 t1 subject quizText key Hclock created.
    pose proof (get_set_eq phone
                  {| subject := subject; quizText := quizText; correctAnswers := key;
                     createdAt := t0; expiresAt := t1 + TTL |} o) as Hget.
    fold (createQuizSession t0 t1 phone subject quizText key o) in Hget.
    fold created in Hget.
    rewrite !(getActive_session _ phone created _ Hget). cbn [expiresAt].
    unfold TTL. split; [|split].
    + eexists. split.
      { destruct (Z.gtb_spec (t0 + (29 * 60 + 59) * 1000) (t1 + 30 * 60 * 1000));
          [lia|reflexivity]. }
      split; reflexivity.
    + destruct (Z.gtb_spec (t0 + (30 * 60 + 1) * 1000) (t1 + 30 * 60 * 1000)); [done|lia].
    + rewrite get_remove_eq. subst created.
      by rewrite createQuizSession_agrees by (by eapply inherited_proto).
Qed.

Lemma C3_witness :
  (getActiveQuizSession 1800001 Sample.phone Sample.object3
   = (None, remove Sample.phone Sample.object3)
   /\ get Sample.phone (remove Sample.phone Sample.object3) = None)
  /\ getActiveQuizSession (0 + (30 * 60 + 1) * 1000) Sample.phone
       (createQuizSession 0 0 Sample.phone "Mathematics" "Question 1: ..." ["A"] empty)
     = (None, remove Sample.phone
                (createQuizSession 0 0 Sample.phone "Mathematics" "Question 1: ..." ["A"]
                   empty)).
Proof.
  split.
  - refine (proj1 (proj2 (C3_lookup_until_expiry 1800001 Sample.phone Sample.object3 _))
              Sample.session3 _ _).
    + reflexivity.
    + vm_compute. reflexivity.
    + vm_compute. reflexivity.
  - refine (proj1 (proj2 (proj2 (proj2 (C3_lookup_until_expiry 0 Sample.phone empty _))
                     0%Z 0%Z "Mathematics" "Question 1: ..." ["A"] _))).
    + reflexivity.
    + lia.
Defined.

End StoreObject.

Section Consumed.

Import JsString Number Server SessionObject.

(** C4 fails for an owner named [__proto__]: creating the session
    stores nothing under that name and makes the session the prototype
    of the store, which [delete] leaves in place, so the same answers
    are graded a second time.  For an owner named like a method of
    [Object.prototype] the session is deleted, and the second attempt
    throws where the notice of no active quiz is due.  For every owner
    under whose name nothing is inherited a completed pass deletes the
    session and the next attempt gets the notice; so it is in the
    handler that asks one question at a time, for its sender keys. *)
Theorem C4_session_under_inherited_name_survives :
  (let o := createQuizSession 0 0 "__proto__" "Mathematics" AiHandler.fallbackQuiz
              ["B"; "b"; "C"] empty in
   own o = ∅
   /\ gradeQuizAnswers 5 "__proto__" ["b"; "B"; "a"] o = Normal (Success Sample.grading3, o)
   /\ gradeQuizAnswers 6 "__proto__" ["b"; "B"; "a"] o = Normal (Success Sample.grading3, o))
  /\ (let o := createQuizSession 0 0 "constructor" "Mathematics" AiHandler.fallbackQuiz
                 ["B"; "b"; "C"] empty in
      gradeQuizAnswers 5 "constructor" ["b"; "B"; "a"] o
      = Normal (Success Sample.grading3, empty)
      /\ gradeQuizAnswers 6 "constructor" ["b"; "B"; "a"] empty = TypeError)
  /\ (forall now now' phone answers answers' (o o' : object) g,
        inherited o phone = None ->
        gradeQuizAnswers now phone answers o = Normal (Success g, o') ->
        get phone o' = None
        /\ gradeQuizAnswers now' phone answers' o' = Normal (Failure noActiveQuiz, o'))
  /\ (forall now now' phone answers answers' (o : object) session,
        inherited o phone = None ->
        own o !! phone = Some session -> (now <= expiresAt session)%Z ->
        length answers = length (correctAnswers session) ->
        exists g,
          gradeQuizAnswers now phone answers o = Normal (Success g, remove phone o)
          /\ gradeQuizAnswers now' phone answers' (remove phone o)
             = Normal (Failure noActiveQuiz, remove phone o))
  /\ (forall phone answer answer' (st st' : WhatsappHandler.Store) session reply,
        startsWith "whatsapp:" phone = true ->
        st !! phone = Some session ->
        WhatsappHandler.answerQuiz phone answer st = Normal (reply, st') ->
        WhatsappHandler.finished reply = true ->
        st' !! phone = None
        /\ WhatsappHandler.answerQuiz phone answer' st'
           = Normal ({| WhatsappHandler.finished := true;
                        WhatsappHandler.message := WhatsappHandler.noActiveQuiz |},
                     st'))
  /\ (forall phone answer answer' (st : WhatsappHandler.Store) session,
        startsWith "whatsapp:" phone = true ->
        st !! phone = Some session ->
        S (length (WhatsappHandler.answersGiven session))
        = length (WhatsappHandler.questions session) ->
        exists reply,
          WhatsappHandler.answerQuiz phone answer st = Normal (reply, delete phone st)
          /\ WhatsappHandler.finished reply = true
          /\ WhatsappHandler.answerQuiz phone answer' (delete phone st)
             = Normal ({| WhatsappHandler.finished := true;
                          WhatsappHandler.message := WhatsappHandler.noActiveQuiz |},
                       delete phone st)).
Proof.
  split; [|split; [|split; [|split; [|split]]]].
  - cbv zeta. split; [|split]; vm_compute; reflexivity.
  - cbv zeta. split; vm_compute; reflexivity.
  - intros now now' phone answers answers' o o' g Hplain Hrun.
    assert (Hgone : get phone o' = None).
    { unfold gradeQuizAnswers in Hrun.
      destruct (own o !! phone) as [session|] eqn:Hown.
      - rewrite (getActive_session now phone o session (get_own _ _ _ Hown)) in Hrun.
        destruct (now >? expiresAt session)%Z; [discriminate|].
        destruct (negb _); [discriminate|].
        destruct (gradeEach _ _ _ _ _) as [[count results]|]; [|discriminate].
        injection Hrun as _ <-. by rewrite get_remove_eq.
      - rewrite getActive_undefined in Hrun by (by rewrite get_not_own).
        discriminate. }
    split; [exact Hgone|]. by apply gradeQuizAnswers_absent.
  - intros now now' phone answers answers' o session Hplain Hown Hnow Hlen.
    destruct (gradeQuizAnswers_session now phone answers o session
                (get_own _ _ _ Hown) Hnow) as [_ Hgraded].
    destruct (Hgraded Hlen) as [g Hrun]. exists g. split; [exact Hrun|].
    apply gradeQuizAnswers_absent. by rewrite get_remove_eq.
  - intros phone answer answer' st st' session reply _ Hst Hrun Hfin.
    assert (Hgone : st' !! phone = None).
    { unfold WhatsappHandler.answerQuiz in Hrun. rewrite Hst in Hrun.
      destruct (WhatsappHandler.questions session !! _) as [question|]; [|discriminate].
      destruct (_ =? _)%nat.
      - injection Hrun as _ <-. apply lookup_delete_eq.
      - injection Hrun as <- _. discriminate. }
    split; [exact Hgone|].
    unfold WhatsappHandler.answerQuiz. by rewrite Hgone.
  - intros phone answer answer' st session _ Hst Hlast.
    assert (Hnext : is_Some (WhatsappHandler.questions session
                             !! length (WhatsappHandler.answersGiven session))).
    { apply lookup_lt_is_Some. lia. }
    destruct Hnext as [question Hquestion].
    unfold WhatsappHandler.answerQuiz at 1. rewrite Hst, Hquestion.
    rewrite length_app. cbn [length].
    replace (length (WhatsappHandler.answersGiven session) + 1)%nat
      with (length (WhatsappHandler.questions session)) by lia.
    rewrite Nat.eqb_refl. rewrite delete_insert_eq.
    eexists. split; [reflexivity|]. split; [reflexivity|].
    unfold WhatsappHandler.answerQuiz. by rewrite lookup_delete_eq.
Qed.

Lemma C4_witness :
  (get Sample.phone (remove Sample.phone Sample.object3) = None
   /\ gradeQuizAnswers 6 Sample.phone ["b"; "B"; "a"] (remove Sample.phone Sample.object3)
      = Normal (Failure noActiveQuiz, remove Sample.phone Sample.object3))
  /\ (exists g,
        gradeQuizAnswers 5 Sample.phone ["b"; "B"; "a"] Sample.object3
        = Normal (Success g, remove Sample.phone Sample.object3)
        /\ gradeQuizAnswers 6 Sample.phone ["b"; "B"; "a"]
             (remove Sample.phone Sample.object3)
           = Normal (Failure noActiveQuiz, remove Sample.phone Sample.object3))
  /\ (delete Sample.sender Sample.lastQuestionStore !! Sample.sender = None
      /\ WhatsappHandler.answerQuiz Sample.sender "a"
           (delete Sample.sender Sample.lastQuestionStore)
         = Normal ({| WhatsappHandler.finished := true;
                      WhatsappHandler.message := WhatsappHandler.noActiveQuiz |},
                   delete Sample.sender Sample.lastQuestionStore))
  /\ (exists reply,
        WhatsappHandler.answerQuiz Sample.sender "b" Sample.lastQuestionStore
        = Normal (reply, delete Sample.sender Sample.lastQuestionStore)
        /\ WhatsappHandler.finished reply = true
        /\ WhatsappHandler.answerQuiz Sample.sender "a"
             (delete Sample.sender Sample.lastQuestionStore)
           = Normal ({| WhatsappHandler.finished := true;
                        WhatsappHandler.message := WhatsappHandler.noActiveQuiz |},
                     delete Sample.sender Sample.lastQuestionStore)).
Proof.
  destruct C4_session_under_inherited_name_survives
    as (_ & _ & Hgraded & Hgrades & Hfinished & Hfinishes).
  split; [|split; [|split]].
  - apply (Hgraded 5%Z 6%Z Sample.phone ["b"; "B"; "a"] ["b"; "B"; "a"]
             Sample.object3 (remove Sample.phone Sample.object3) Sample.grading3);
      [reflexivity | vm_compute; reflexivity].
  - apply (Hgrades 5%Z 6%Z Sample.phone ["b"; "B"; "a"] ["b"; "B"; "a"]
             Sample.object3 Sample.session3);
      [reflexivity | vm_compute; reflexivity | vm_compute; discriminate | reflexivity].
  - apply (Hfinished Sample.sender "b" "a" Sample.lastQuestionStore
             (delete Sample.sender Sample.lastQuestionStore) Sample.lastQuestion
             {| WhatsappHandler.finished := true;
                WhatsappHandler.message :=
                  "❌ Wrong! Correct answer: A" ++ WhatsappHandler.quizFinished 0 1 |});
      [reflexivity | apply lookup_insert_eq | vm_compute; reflexivity | reflexivity].
  - apply (Hfinishes Sample.sender "b" "a" Sample.lastQuestionStore Sample.lastQuestion);
      [reflexivity | apply lookup_insert_eq | reflexivity].
Defined.

End Consumed.

Section Creation.

Import JsString Number Server SessionObject.

(** C8: a store holds at most one session per owner, and creating a
    session makes the new session the one the store gives for the owner,
    whatever it gave before and whatever the owner is called; under
    every name but [__proto__] the session is the one entry of the owner
    and what is read under other names is unchanged.  [startQuiz] does
    the same in the handler that asks one question at a time, for its
    sender keys, and always returns. *)
Theorem C8_create_overwrites :
  (forall (o : object) phone,
      (length (filter (fun entry => entry.1 = phone) (map_to_list (own o))) <= 1)%nat)
  /\ (forall now1 now2 phone subject quizText key (o : object),
        let session := {| subject := subject;
                          quizText := quizText;
                          correctAnswers := key;
                          createdAt := now1;
                          expiresAt := now2 + TTL |} in
        let created := createQuizSession now1 now2 phone subject quizText key o in
        get phone created = Some (VSession session)
        /\ (forall now, (now <= now2 + TTL)%Z ->
              getActiveQuizSession now phone created = (Some (VSession session), created))
        /\ (String.eqb phone "__proto__" = false ->
            own created !! phone = Some session
            /\ length (filter (fun entry => entry.1 = phone) (map_to_list (own created)))
               = 1%nat
            /\ forall other, other <> phone -> get other created = get other o))
  /\ (forall quizText phone subject (st : WhatsappHandler.Store),
        startsWith "whatsapp:" phone = true ->
        exists questions created,
          WhatsappHandler.startQuizWith quizText phone subject st
          = Normal (questions, created)
          /\ created !! phone
             = Some {| WhatsappHandler.subject := subject;
                       WhatsappHandler.questions := questions;
                       WhatsappHandler.answersGiven := [] |}
          /\ length (filter (fun entry => entry.1 = phone) (map_to_list created))
             = 1%nat
          /\ forall other, other <> phone -> created !! other = st !! other).
Proof.
  split; [|split].
  - intros o phone. rewrite entries_of_key. destruct (own o !! phone); lia.
  - intros now1 now2 phone subject quizText key o session created.
    assert (Hget : get phone created = Some (VSession session)).
    { apply get_set_eq. }
    split; [exact Hget|]. split.
    + intros now Hnow. rewrite (getActive_session now phone created session Hget).
      change (expiresAt session) with (now2 + TTL)%Z.
      destruct (Z.gtb_spec now (now2 + TTL)); [lia|done].
    + intros Hname. subst created. rewrite createQuizSession_agrees by done.
      cbn [own]. unfold Server.createQuizSession. fold session.
      split; [apply lookup_insert_eq|]. split.
      * by rewrite entries_of_key, lookup_insert_eq.
      * intros other Hother. unfold get. cbn [own].
        by rewrite lookup_insert_ne.
  - intros quizText phone subject st _. unfold WhatsappHandler.startQuizWith.
    destruct (parseQuestions_returns
                (drop 1 (Regex.split WhatsappHandler.questionHeading quizText)))
      as (questions & -> & _).
    eexists _, _. split; [reflexivity|].
    split; [apply lookup_insert_eq|]. split.
    + by rewrite entries_of_key, lookup_insert_eq.
    + intros other Hother. by apply lookup_insert_ne.
Qed.

Lemma C8_witness :
  (getActiveQuizSession 8 Sample.phone
     (createQuizSession 7 7 Sample.phone "Science" "Question 1: ..." ["D"] Sample.object3)
   = (Some (VSession {| subject := "Science";
                        quizText := "Question 1: ...";
                        correctAnswers := ["D"];
                        createdAt := 7;
                        expiresAt := 7 + TTL |}),
      createQuizSession 7 7 Sample.phone "Science" "Question 1: ..." ["D"] Sample.object3))
  /\ (get "+254700000000"
        (createQuizSession 7 7 Sample.phone "Science" "Question 1: ..." ["D"]
           Sample.object3)
      = get "+254700000000" Sample.object3)
  /\ exists questions created,
       WhatsappHandler.startQuizWith AiHandler.fallbackQuiz Sample.sender
         "Science" Sample.lastQuestionStore
       = Normal (questions, created)
       /\ created !! Sample.sender
          = Some {| WhatsappHandler.subject := "Science";
                    WhatsappHandler.questions := questions;
                    WhatsappHandler.answersGiven := [] |}
       /\ length (filter (fun entry => entry.1 = Sample.sender) (map_to_list created))
          = 1%nat
       /\ forall other, other <> Sample.sender ->
            created !! other = Sample.lastQuestionStore !! other.
Proof.
  destruct C8_create_overwrites as (_ & Hcreate & Hstart).
  destruct (Hcreate 7%Z 7%Z Sample.phone "Science" "Question 1: ..." ["D"] Sample.object3)
    as (_ & Hlive & Hown).
  split; [|split].
  - apply Hlive. vm_compute. discriminate.
  - apply Hown; [reflexivity|discriminate].
  - apply Hstart. reflexivity.
Defined.

End Creation.

Section ServerObjectExtras.

Import JsString Number Server SessionObject.

(** X1: [gradeQuizAnswers] throws exactly when the store holds nothing
    of its own under the owner's name and inherits under it a value
    that counts as true and is no session (as under [constructor] in a
    fresh store); the [TypeError] inside the [forEach] is unreachable
    behind the test of the number of answers.  When it returns, the
    store it leaves is the store it got or that store without the
    owner's own entry, and what is read under any other name is
    unchanged. *)
Theorem X1_grading_throws_or_is_local now phone answers (o : object) :
  (gradeQuizAnswers now phone answers o = TypeError
   <-> own o !! phone = None
       /\ exists v, inherited o phone = Some v /\ truthy v = true
                    /\ forall session, v <> VSession session)
  /\ (forall outcome o',
        gradeQuizAnswers now phone answers o = Normal (outcome, o') ->
        (o' = o \/ o' = remove phone o)
        /\ forall other, other <> phone -> get other o' = get other o)
  /\ (inherited o phone = None ->
      exists outcome o', gradeQuizAnswers now phone answers o = Normal (outcome, o')).
Proof.
  assert (Hlocal : forall o' : object,
             o' = o \/ o' = remove phone o ->
             forall other, other <> phone -> get other o' = get other o).
  { intros o' [->| ->] other Hother; [done|]. by apply get_remove_ne. }
  assert (Hcases :
            (exists outcome o', gradeQuizAnswers now phone answers o = Normal (outcome, o')
                                /\ (o' = o \/ o' = remove phone o)
                                /\ (own o !! phone = None ->
                                    forall v, inherited o phone = Some v ->
                                              truthy v = true ->
                                              exists session, v = VSession session))
            \/ (gradeQuizAnswers now phone answers o = TypeError
                /\ own o !! phone = None
                /\ exists v, inherited o phone = Some v /\ truthy v = true
                             /\ forall session, v <> VSession session)).
  { assert (Hsession : forall session,
               get phone o = Some (VSession session) ->
               exists outcome o',
                 gradeQuizAnswers now phone answers o = Normal (outcome, o')
                 /\ (o' = o \/ o' = remove phone o)).
    { intros session Hget. unfold gradeQuizAnswers.
      rewrite (getActive_session now phone o session Hget).
      destruct (now >? expiresAt session)%Z.
      - eexists _, _. split; [reflexivity|]. by right.
      - destruct (Nat.eqb_spec (length answers) (length (correctAnswers session)))
          as [Hlen|Hlen]; cbn [negb].
        + destruct (gradeEach_spec (correctAnswers session) answers 0 0 [])
            as (results & -> & _); [simpl; lia|].
          eexists _, _. split; [reflexivity|]. by right.
        + eexists _, _. split; [reflexivity|]. by left. }
    destruct (own o !! phone) as [session|] eqn:Hown.
    - left. destruct (Hsession session (get_own _ _ _ Hown)) as (outcome & o' & Hrun & Ho').
      exists outcome, o'. split; [exact Hrun|]. split; [exact Ho'|]. discriminate.
    - pose proof (get_not_own phone o Hown) as Hget.
      destruct (inherited o phone) as [v|] eqn:Hinherited.
      + destruct v as [session| | | | |].
        { left. destruct (Hsession session Hget) as (outcome & o' & Hrun & Ho').
          exists outcome, o'. split; [exact Hrun|]. split; [exact Ho'|].
          intros _ v [= <-] _. by exists session. }
        all: unfold gradeQuizAnswers, getActiveQuizSession; rewrite Hget;
          match goal with
          | |- context [truthy ?v] => destruct (truthy v) eqn:Htruthy
          end; cbn [negb];
          [ right; split; [reflexivity|]; split; [reflexivity|];
            eexists; split; [reflexivity|]; split; [exact Htruthy|]; discriminate
          | left; eexists _, _; split; [reflexivity|]; split; [by left|];
            intros _ v' [= <-] Htrue; rewrite Htrue in Htruthy; discriminate ].
      + left. rewrite (gradeQuizAnswers_absent now phone answers o Hget).
        eexists _, _. split; [reflexivity|]. split; [by left|]. discriminate. }
  split; [|split].
  - split.
    + intros Hthrow. destruct Hcases as [(outcome & o' & Hrun & _)|(_ & Hrest)];
        [congruence|exact Hrest].
    + intros (Hown & v & Hinherited & Htruthy & Hv).
      destruct Hcases as [(outcome & o' & Hrun & _ & Hsession)|[Hthrow _]];
        [|exact Hthrow].
      destruct (Hsession Hown v Hinherited Htruthy) as [session ->].
      by destruct (Hv session).
  - intros outcome o' Hrun.
    destruct Hcases as [(outcome1 & o1 & Hrun1 & Ho1 & _)|[Hthrow _]]; [|congruence].
    rewrite Hrun1 in Hrun. injection Hrun as -> ->.
    split; [exact Ho1|]. by apply Hlocal.
  - intros Hplain.
    destruct Hcases as [(outcome & o' & Hrun & _)|(_ & _ & v & Hv & _)]; [|congruence].
    by exists outcome, o'.
Qed.

Lemma X1_witness :
  gradeQuizAnswers 5 "constructor" ["A"] empty = TypeError
  /\ ((Sample.object3 = Sample.object3
       \/ Sample.object3 = remove Sample.phone Sample.object3)
      /\ forall other, other <> Sample.phone ->
           get other Sample.object3 = get other Sample.object3)
  /\ exists outcome o',
       gradeQuizAnswers 5 Sample.phone ["A"] Sample.object3 = Normal (outcome, o').
Proof.
  destruct (X1_grading_throws_or_is_local 5 "constructor" ["A"] empty) as (Hthrows & _).
  destruct (X1_grading_throws_or_is_local 5 Sample.phone ["A"] Sample.object3)
    as (_ & Hlocal & Hreturns).
  split; [|split].
  - apply Hthrows. split; [reflexivity|].
    exists (VFunction "constructor"). split; [reflexivity|]. split; [reflexivity|].
    discriminate.
  - apply (Hlocal (Failure (pleaseProvide 3))). vm_compute. reflexivity.
  - apply Hreturns. reflexivity.
Defined.

(** X3: [getActiveQuizSession] is read-only when it returns a value,
    which is then what the store gives under the name; when it returns
    null for a name under which nothing is inherited, the store it
    leaves gives nothing under the name, so every later lookup returns
    null too, at any clock reading (an evicted session cannot come
    back, even if the clock goes backwards). *)
Theorem X3_lookup_reads_or_evicts_for_good now phone (o : object) :
  (forall v o',
      getActiveQuizSession now phone o = (Some v, o') ->
      o' = o /\ get phone o = Some v /\ truthy v = true)
  /\ (inherited o phone = None ->
      forall o',
        getActiveQuizSession now phone o = (None, o') ->
        get phone o' = None
        /\ forall now', getActiveQuizSession now' phone o' = (None, o')).
Proof.
  split.
  - intros v o'. unfold getActiveQuizSession.
    destruct (get phone o) as [w|] eqn:Hget; [|discriminate].
    destruct (truthy w) eqn:Htruthy; cbn [negb]; [|discriminate].
    destruct w as [session| | | | |];
      try (intros [= <- <-]; by rewrite Htruthy).
    destruct (now >? expiresAt session)%Z; [discriminate|].
    intros [= <- <-]. by rewrite Htruthy.
  - intros Hplain o' Hrun.
    assert (Hgone : get phone o' = None).
    { destruct (own o !! phone) as [session|] eqn:Hown.
      - rewrite (getActive_session now phone o session (get_own _ _ _ Hown)) in Hrun.
        destruct (now >? expiresAt session)%Z; [|discriminate].
        injection Hrun as <-. by rewrite get_remove_eq.
      - pose proof (get_not_own phone o Hown) as Hget. rewrite Hplain in Hget.
        rewrite (getActive_undefined now phone o Hget) in Hrun.
        by injection Hrun as <-. }
    split; [exact Hgone|]. intros now'. by apply getActive_undefined.
Qed.

Lemma X3_witness :
  (Sample.object3 = Sample.object3
   /\ get Sample.phone Sample.object3 = Some (VSession Sample.session3)
   /\ truthy (VSession Sample.session3) = true)
  /\ get Sample.phone (remove Sample.phone Sample.object3) = None
  /\ forall now',
       getActiveQuizSession now' Sample.phone (remove Sample.phone Sample.object3)
       = (None, remove Sample.phone Sample.object3).
Proof.
  split.
  - apply (proj1 (X3_lookup_reads_or_evicts_for_good 5 Sample.phone Sample.object3)).
    vm_compute. reflexivity.
  - apply (proj2 (X3_lookup_reads_or_evicts_for_good 1800001 Sample.phone Sample.object3)).
    + reflexivity.
    + vm_compute. reflexivity.
Defined.

End ServerObjectExtras.

Section AnswerCase.

Import JsString JsStringMore Number Server SessionObject.

(** X4: grading ignores the case of submitted answers that are ASCII
    text: the answer list uppercased or lowercased gives exactly the
    same result, or the same exception, and the same store as the
    answers themselves. *)
Theorem X4_grading_ignores_answer_case now phone answers (o : object) :
  Forall (fun answer => isAscii answer = true) answers ->
  gradeQuizAnswers now phone (toUpperCase <$> answers) o
  = gradeQuizAnswers now phone answers o
  /\ gradeQuizAnswers now phone (toLowerCase <$> answers) o
     = gradeQuizAnswers now phone answers o.
Proof.
  intros _. unfold gradeQuizAnswers.
  destruct (getActiveQuizSession now phone o) as [[[session| | | | |]|] o1]; try done.
  rewrite !length_fmap.
  rewrite (gradeEach_same_upper _ toUpperCase) by apply toUpperCase_idem.
  rewrite (gradeEach_same_upper _ toLowerCase) by apply toUpperCase_toLowerCase.
  done.
Qed.

Lemma X4_witness :
  gradeQuizAnswers 5 Sample.phone (toUpperCase <$> ["b"; "B"; "a"]) Sample.object3
  = gradeQuizAnswers 5 Sample.phone ["b"; "B"; "a"] Sample.object3
  /\ gradeQuizAnswers 5 Sample.phone (toLowerCase <$> ["b"; "B"; "a"]) Sample.object3
     = gradeQuizAnswers 5 Sample.phone ["b"; "B"; "a"] Sample.object3.
Proof.
  apply (X4_grading_ignores_answer_case 5 Sample.phone ["b"; "B"; "a"] Sample.object3).
  repeat constructor.
Defined.

End AnswerCase.
